(** * Synova AI API server (main.py): model and properties

    The server keeps two SQLite tables (users, messages) and exposes the
    endpoints [process_query], [register_user], [login_user],
    [health_check] and [get_stats].  This development embeds those
    functions, with the tables as explicit state, and proves the properties
    of the tiered query API: length validation, the free tier's daily quota
    and its midnight reset, registration and login, the keyword-driven
    choice of the canned response, and the append-only message log.

    Conventions.
    - Python [str] values are Rocq strings, read as sequences of code points
      below 256 (Latin-1).  On that range [len], [str.lower], the [in]
      substring test and UTF-8 encoding are modelled exactly.
    - Python [int] is [Z].
    - [float] values ([random.uniform], the confidence, the sleep time) are
      rationals: rounding is not modelled.
    - A [datetime] is a day number (as [date.toordinal]) and the microseconds
      since midnight; the text form SQLite stores and [fromisoformat] reads
      back is not modelled, a stored timestamp is the value itself.
    - Each request receives the readings of the clock and of the random
      generator it consumes in an [Env] record. *)

From Stdlib Require Import ZArith QArith Lqa Ascii.
From stdpp Require Import gmap strings list fin_maps pretty.

Open Scope Z_scope.

(** ** Text: the operations of Python's [str] used by the server *)

Module Text.

Definition code (c : ascii) : Z := Z.of_N (N_of_ascii c).
Definition chr (z : Z) : ascii := ascii_of_N (Z.to_N z).

(** [str.lower] on one code point below 256: A-Z and the Latin-1 capitals
    U+00C0..U+00DE (except the multiplication sign U+00D7) move up by 32. *)
Definition lower_char (c : ascii) : ascii :=
  let z := code c in
  if ((65 <=? z) && (z <=? 90)) || ((192 <=? z) && (z <=? 222) && negb (z =? 215))
  then chr (z + 32) else c.

Fixpoint lower (s : string) : string :=
  match s with
  | EmptyString => EmptyString
  | String c t => String (lower_char c) (lower t)
  end.

(** [word in text]: [word] occurs as a contiguous substring of [text]. *)
Fixpoint contains (word text : string) : bool :=
  String.prefix word text ||
  match text with
  | EmptyString => false
  | String _ t => contains word t
  end.

(** [any(word in text for word in words)] *)
Definition any_in (words : list string) (text : string) : bool :=
  existsb (fun w => contains w text) words.

(** [len(s)] *)
Definition len (s : string) : Z := Z.of_nat (String.length s).

(** [s.encode()]: UTF-8, one byte below 128 and two bytes from 128 to 255. *)
Fixpoint encode (s : string) : list Z :=
  match s with
  | EmptyString => []
  | String c t =>
      let z := code c in
      if z <? 128 then z :: encode t
      else Z.lor 192 (Z.shiftr z 6) :: Z.lor 128 (Z.land z 63) :: encode t
  end.

End Text.

(** ** SHA-256 (FIPS 180-4), as computed by [hashlib.sha256] *)

Module SHA256.

Definition w32 (x : Z) : Z := x mod 2 ^ 32.
Definition add32 (x y : Z) : Z := w32 (x + y).
Definition rotr (n x : Z) : Z :=
  Z.lor (Z.shiftr x n) (w32 (Z.shiftl x (32 - n))).
Definition shr (n x : Z) : Z := Z.shiftr x n.
Definition xor3 (x y z : Z) : Z := Z.lxor (Z.lxor x y) z.

Definition Ch (x y z : Z) : Z :=
  Z.lxor (Z.land x y) (Z.land (Z.lxor x 0xffffffff) z).
Definition Maj (x y z : Z) : Z :=
  xor3 (Z.land x y) (Z.land x z) (Z.land y z).
Definition Sigma0 (x : Z) : Z := xor3 (rotr 2 x) (rotr 13 x) (rotr 22 x).
Definition Sigma1 (x : Z) : Z := xor3 (rotr 6 x) (rotr 11 x) (rotr 25 x).
Definition sigma0 (x : Z) : Z := xor3 (rotr 7 x) (rotr 18 x) (shr 3 x).
Definition sigma1 (x : Z) : Z := xor3 (rotr 17 x) (rotr 19 x) (shr 10 x).

(** The constants are fractional parts of roots of the first primes:
    [H0] takes 32 bits of the square roots of the first 8, [K] 32 bits of
    the cube roots of the first 64. *)
Definition is_prime (n : Z) : bool :=
  forallb (fun d => negb (n mod d =? 0)) (seqZ 2 (n - 2)).

Definition primes : list Z := List.filter is_prime (seqZ 2 310).

(** The largest [x] below [2 ^ bits] with [x ^ 3 <= n]. *)
Fixpoint cube_root (bits : nat) (n x : Z) : Z :=
  match bits with
  | O => x
  | S b =>
      let y := x + 2 ^ Z.of_nat b in
      cube_root b n (if y * y * y <=? n then y else x)
  end.

Definition K : list Z :=
  List.map (fun p => w32 (cube_root 36 (p * 2 ^ 96) 0)) primes.

Definition H0 : list Z :=
  List.map (fun p => w32 (Z.sqrt (p * 2 ^ 64))) (take 8 primes).

(** Big-endian bytes of [x], [n] of them. *)
Fixpoint be_bytes (n : nat) (x : Z) : list Z :=
  match n with
  | O => []
  | S n' => Z.land (Z.shiftr x (8 * Z.of_nat n')) 255 :: be_bytes n' x
  end.

(** The message, a 1 bit, zero bits up to 56 mod 64 bytes, and the length
    in bits on 64 bits. *)
Definition pad (msg : list Z) : list Z :=
  let l := Z.of_nat (length msg) in
  msg ++ [128] ++ repeat 0 (Z.to_nat ((55 - l) mod 64)) ++ be_bytes 8 (8 * l).

Fixpoint words (fuel : nat) (bs : list Z) : list Z :=
  match fuel, bs with
  | S fuel', b0 :: b1 :: b2 :: b3 :: rest =>
      (b0 * 2 ^ 24 + b1 * 2 ^ 16 + b2 * 2 ^ 8 + b3) :: words fuel' rest
  | _, _ => []
  end.

(** Message schedule, most recent word first while it grows. *)
Fixpoint extend (n : nat) (rw : list Z) : list Z :=
  match n with
  | O => rw
  | S n' =>
      let w := add32 (add32 (sigma1 (nth 1 rw 0)) (nth 6 rw 0))
                     (add32 (sigma0 (nth 14 rw 0)) (nth 15 rw 0)) in
      extend n' (w :: rw)
  end.

Definition schedule (block : list Z) : list Z :=
  rev (extend 48 (rev block)).

Record regs := Regs { ra : Z; rb : Z; rc : Z; rd : Z;
                      re : Z; rf : Z; rg : Z; rh : Z }.

Definition round (s : regs) (kw : Z * Z) : regs :=
  let t1 := add32 (add32 (add32 (rh s) (Sigma1 (re s)))
                         (add32 (Ch (re s) (rf s) (rg s)) (fst kw))) (snd kw) in
  let t2 := add32 (Sigma0 (ra s)) (Maj (ra s) (rb s) (rc s)) in
  Regs (add32 t1 t2) (ra s) (rb s) (rc s) (add32 (rd s) t1) (re s) (rf s) (rg s).

Definition of_list (h : list Z) : regs :=
  Regs (nth 0 h 0) (nth 1 h 0) (nth 2 h 0) (nth 3 h 0)
       (nth 4 h 0) (nth 5 h 0) (nth 6 h 0) (nth 7 h 0).

Definition to_list (s : regs) : list Z :=
  [ra s; rb s; rc s; rd s; re s; rf s; rg s; rh s].

Definition compress (h : list Z) (block : list Z) : list Z :=
  let s := fold_left round (combine K (schedule block)) (of_list h) in
  zip_with add32 h (to_list s).

Fixpoint blocks (fuel : nat) (ws : list Z) (h : list Z) : list Z :=
  match fuel, ws with
  | _, [] => h
  | O, _ => h
  | S fuel', _ => blocks fuel' (drop 16 ws) (compress h (take 16 ws))
  end.

Definition digest_words (msg : list Z) : list Z :=
  let bs := pad msg in
  let ws := words (length bs) bs in
  blocks (length ws) ws H0.

Definition hex_digit (d : Z) : ascii :=
  if d <? 10 then Text.chr (48 + d) else Text.chr (87 + d).

Fixpoint hex_of_bytes (bs : list Z) : string :=
  match bs with
  | [] => EmptyString
  | b :: rest =>
      String (hex_digit (Z.shiftr b 4))
             (String (hex_digit (Z.land b 15)) (hex_of_bytes rest))
  end.

(** [hashlib.sha256(data).hexdigest()] *)
Definition hexdigest (msg : list Z) : string :=
  hex_of_bytes (flat_map (be_bytes 4) (digest_words msg)).

End SHA256.

(** ** Data model *)

(** A naive [datetime]: the day ([date()], compared as [toordinal]) and the
    time within the day. *)
Record datetime := DateTime { date : Z; microseconds : Z }.

(** Rows of the [users] table; the key [id] is the key of the table's map. *)
Module User.
Record t := Row {
  email : string;
  password_hash : string;
  tier : string;
  created_at : datetime;
  message_count : Z;
  last_reset : datetime
}.
End User.

(** Rows of the [messages] table. *)
Module Message.
Record t := Row {
  id : Z;
  user_id : Z;
  message : string;
  response : string;
  tier : string;
  timestamp : datetime
}.
End Message.

(** Request bodies (the pydantic models). *)
Module QueryRequest.
Record t := Make {
  query : string;
  tier : string;          (* default "terrestrial" *)
  user_id : option Z      (* Optional[int] = None *)
}.
End QueryRequest.

Module UserRegistration.
Record t := Make { email : string; password : string }.
End UserRegistration.

Module UserLogin.
Record t := Make { email : string; password : string }.
End UserLogin.

(** The dictionary returned by [generate_response]. *)
Module AIResponse.
Record t := Make {
  response : string;
  confidence : Q;
  tier : string;
  processing_time : Q;
  timestamp : datetime
}.
End AIResponse.

(** The two tables of synova.db. *)
Record database := Database {
  users : gmap Z User.t;
  messages : list Message.t
}.

(** Statements that write to the database. *)
Inductive statement :=
  | ResetCount (user_id : Z) (now : datetime)
      (* UPDATE users SET message_count = 0, last_reset = ? WHERE id = ? *)
  | IncrementCount (user_id : Z)
      (* UPDATE users SET message_count = message_count + 1 WHERE id = ? *)
  | InsertMessage (user_id : Z) (message response tier : string)
      (* INSERT INTO messages (user_id, message, response, tier) *)
  | InsertUser (email password_hash : string).
      (* INSERT INTO users (email, password_hash, tier) *)

(** What a request does besides returning: it sleeps and it writes. *)
Inductive effect :=
  | Sleep (seconds : Q)
  | Execute (s : statement).

Record world := World {
  db : database;
  log : list effect       (* oldest first *)
}.

(** What a request reads from outside: the clock and the random generator.
    [process_query] reads the clock up to three times, in this order. *)
Record Env := MkEnv {
  now_check : datetime;          (* datetime.now() in the new-day test *)
  now_reset : datetime;          (* datetime.now() written by the reset *)
  now_reply : datetime;          (* datetime.now() in the response *)
  current_timestamp : datetime;  (* SQLite's CURRENT_TIMESTAMP *)
  random : nat -> Q              (* successive values of random.random() *)
}.

(** [random.uniform(a, b)] is [a + (b - a) * random()]. *)
Definition uniform (a b r : Q) : Q := (a + (b - a) * r)%Q.

(** ** Exceptions and the request monad *)

Inductive exn :=
  | HTTPException (status_code : Z) (detail : string)
  | KeyError (key : string).

Inductive outcome (A : Type) :=
  | Return (a : A)
  | Raise (e : exn).
Arguments Return {A} a.
Arguments Raise {A} e.

Definition M (A : Type) : Type := world -> outcome A * world.

Definition ret {A} (a : A) : M A := fun w => (Return a, w).
Definition raise {A} (e : exn) : M A := fun w => (Raise e, w).
Definition bind {A B} (m : M A) (k : A -> M B) : M B :=
  fun w => match m w with
           | (Return a, w') => k a w'
           | (Raise e, w') => (Raise e, w')
           end.

Notation "'do' x <- m ; k" := (bind m (fun x => k))
  (at level 10, x name, m at level 100, k at level 200).
Notation "m ;; k" := (bind m (fun _ => k))
  (at level 100, k at level 200, right associativity).

(** [try: body except Exception as e: handler e] *)
Definition try_except {A} (body : M A) (handler : exn -> M A) : M A :=
  fun w => match body w with
           | (Return a, w') => (Return a, w')
           | (Raise e, w') => handler e w'
           end.

(** [d[k]] on a dictionary with string keys. *)
Definition getitem {A} (d : gmap string A) (k : string) : M A :=
  match d !! k with
  | Some v => ret v
  | None => raise (KeyError k)
  end.

(** [d.get(k, default)] *)
Definition get_or {A} (d : gmap string A) (k : string) (dflt : A) : A :=
  default dflt (d !! k).

Definition read_db : M database := fun w => (Return (db w), w).
Definition emit (e : effect) : M unit :=
  fun w => (Return tt, World (db w) (log w ++ [e])).

(** [str(e)] in the handler of [process_query]: Starlette prints an
    HTTPException as status and detail, Python prints a KeyError as the
    quoted key (written here for keys without quotes or escapes). *)
Definition str_exn (e : exn) : string :=
  match e with
  | HTTPException c d => pretty c +:+ ": " +:+ d
  | KeyError k => "'" +:+ k +:+ "'"
  end.

(** ** SQL on the tables *)

(** The rowid SQLite gives a new row of a table with INTEGER PRIMARY KEY:
    one more than the largest in use, 1 in an empty table. *)
Definition next_rowid (ids : list Z) : Z :=
  match ids with
  | [] => 1
  | i :: rest => foldr Z.max i rest + 1
  end.

(** SELECT id FROM users WHERE email = ? *)
Definition select_by_email (email : string) (us : gmap Z User.t)
  : option (Z * User.t) :=
  snd <$> list_find (fun kv => User.email kv.2 = email) (map_to_list us).

(** SELECT id, tier, message_count FROM users
    WHERE email = ? AND password_hash = ? *)
Definition select_by_credentials (email hash : string) (us : gmap Z User.t)
  : option (Z * User.t) :=
  snd <$> list_find
            (fun kv => User.email kv.2 = email /\ User.password_hash kv.2 = hash)
            (map_to_list us).

Definition new_user_id (d : database) : Z :=
  next_rowid (fst <$> map_to_list (users d)).

Definition reset_row (now : datetime) (u : User.t) : User.t :=
  User.Row (User.email u) (User.password_hash u) (User.tier u)
           (User.created_at u) 0 now.

Definition increment_row (u : User.t) : User.t :=
  User.Row (User.email u) (User.password_hash u) (User.tier u)
           (User.created_at u) (User.message_count u + 1) (User.last_reset u).

Definition exec (s : statement) (ts : datetime) (d : database) : database :=
  match s with
  | ResetCount uid now =>
      Database (alter (reset_row now) uid (users d)) (messages d)
  | IncrementCount uid =>
      Database (alter increment_row uid (users d)) (messages d)
  | InsertMessage uid msg resp tier =>
      let mid := next_rowid (Message.id <$> messages d) in
      Database (users d)
               (messages d ++ [Message.Row mid uid msg resp tier ts])
  | InsertUser email hash =>
      let uid := new_user_id d in
      Database (<[uid := User.Row email hash "terrestrial" ts 0 ts]> (users d))
               (messages d)
  end.

(** [cursor.execute] of a writing statement, followed by its commit. *)
Definition execute (s : statement) (ts : datetime) : M unit :=
  fun w => (Return tt, World (exec s ts (db w)) (log w ++ [Execute s])).

(** ** The server *)

(** [SynovaAI.responses]: one dictionary of canned strings per tier. *)
Definition terrestrial_responses : gmap string string :=
  list_to_map [
    ("greeting", "Hello! I'm Synova Terrestrial, your free AI assistant. How can I help you today?");
    ("help", "I can help with basic questions and simple conversations. For advanced features, consider upgrading to Aerial or Celestial!");
    ("features", "Free tier includes: Basic AI responses, ethical guidelines, and 50 messages per day. Upgrade for more features!");
    ("upgrade", "Ready to unlock more power? Aerial ($19/month) offers unlimited messages and advanced reasoning. Celestial ($49/month) includes quantum predictions!");
    ("default", "Thank you for your question. As a free tier user, I provide basic assistance. For advanced analysis, consider upgrading!")
  ].

Definition aerial_responses : gmap string string :=
  list_to_map [
    ("greeting", "Welcome to Synova Aerial! I'm your advanced AI assistant with enhanced reasoning capabilities.");
    ("analysis", "Using advanced neuro-symbolic reasoning to analyze your request...");
    ("prediction", "Based on temporal analysis and pattern recognition, here are my insights:");
    ("default", "I'm analyzing this with advanced AI techniques including pattern recognition and contextual reasoning.")
  ].

Definition celestial_responses : gmap string string :=
  list_to_map [
    ("greeting", "Greetings! I'm Synova Celestial with full quantum-enhanced capabilities at your service.");
    ("quantum", "Applying quantum-inspired algorithms for maximum prediction accuracy...");
    ("temporal", "Using temporal weave analysis to understand context and predict outcomes...");
    ("default", "Engaging full quantum-enhanced processing with neuro-symbolic fusion for optimal results.")
  ].

Definition responses : gmap string (gmap string string) :=
  list_to_map [
    ("terrestrial", terrestrial_responses);
    ("aerial", aerial_responses);
    ("celestial", celestial_responses)
  ].

(** The keyword choice of [generate_response]: the if/elif chain. *)
Definition select_response (tier : string) (tier_responses : gmap string string)
    (query_lower : string) : M string :=
  if Text.any_in ["hello"; "hi"; "hey"; "greeting"] query_lower then
    getitem tier_responses "greeting"
  else if Text.any_in ["help"; "what can you do"] query_lower then
    do dflt <- getitem tier_responses "default";
    ret (get_or tier_responses "help" dflt)
  else if Text.any_in ["feature"; "upgrade"; "tier"] query_lower then
    do dflt <- getitem tier_responses "default";
    ret (get_or tier_responses "upgrade" dflt)
  else if String.eqb tier "aerial"
          && Text.any_in ["analyze"; "analysis"] query_lower then
    getitem tier_responses "analysis"
  else if String.eqb tier "celestial"
          && Text.any_in ["quantum"; "predict"] query_lower then
    getitem tier_responses "quantum"
  else
    getitem tier_responses "default".

(** [SynovaAI.generate_response]; both dictionaries of random values are
    built in full, so six values of the generator are consumed. *)
Definition generate_response (e : Env) (query tier : string)
  : M AIResponse.t :=
  let processing_time : gmap string Q := list_to_map [
    ("terrestrial", uniform 2 4 (random e 0%nat));
    ("aerial", uniform 1 2 (random e 1%nat));
    ("celestial", uniform (1 # 2) 1 (random e 2%nat)) ] in
  do seconds <- getitem processing_time tier;
  emit (Sleep seconds) ;;
  let query_lower := Text.lower query in
  do tier_responses <- getitem responses tier;
  do response <- select_response tier tier_responses query_lower;
  do confidence <- getitem (list_to_map [
    ("terrestrial", uniform (6 # 10) (8 # 10) (random e 3%nat));
    ("aerial", uniform (75 # 100) (9 # 10) (random e 4%nat));
    ("celestial", uniform (85 # 100) (95 # 100) (random e 5%nat)) ]) tier;
  do seconds' <- getitem processing_time tier;
  ret (AIResponse.Make response confidence tier seconds' (now_reply e)).

Definition hash_password (password : string) : string :=
  SHA256.hexdigest (Text.encode password).

(** Python's truth value of an [Optional[int]]: [None] and [0] are false. *)
Definition truthy (o : option Z) : option Z :=
  match o with
  | Some 0 => None
  | _ => o
  end.

Definition verify_user_limits (e : Env) (user_id : Z) (tier : string)
  : M bool :=
  if negb (String.eqb tier "terrestrial") then ret true
  else
    do d <- read_db;
    match users d !! user_id with
    | None => ret false
    | Some result =>
        let last_reset_date := User.last_reset result in
        do message_count <-
          (if date last_reset_date <? date (now_check e) then
             execute (ResetCount user_id (now_reset e)) (current_timestamp e) ;;
             ret 0
           else ret (User.message_count result));
        ret (message_count <? 50)
    end.

Definition max_lengths : gmap string Z :=
  list_to_map [("terrestrial", 200); ("aerial", 2000); ("celestial", 8000)].

Definition process_query (e : Env) (request : QueryRequest.t)
  : M AIResponse.t :=
  let query := QueryRequest.query request in
  let tier := QueryRequest.tier request in
  do limit <- getitem max_lengths tier;
  (if limit <? Text.len query then
     raise (HTTPException 400
              ("Query too long for " +:+ tier +:+ " tier. Maximum "
               +:+ pretty limit +:+ " characters."))
   else ret tt) ;;
  match truthy (QueryRequest.user_id request) with
  | Some user_id =>
      if String.eqb tier "terrestrial" then
        do allowed <- verify_user_limits e user_id tier;
        if negb allowed then
          raise (HTTPException 429
                   "Daily message limit reached. Please upgrade or try again tomorrow.")
        else ret tt
      else ret tt
  | None => ret tt
  end ;;
  try_except
    (do ai_response <- generate_response e query tier;
     match truthy (QueryRequest.user_id request) with
     | Some user_id =>
         execute (InsertMessage user_id query
                    (AIResponse.response ai_response) tier)
                 (current_timestamp e) ;;
         (if String.eqb tier "terrestrial" then
            execute (IncrementCount user_id) (current_timestamp e)
          else ret tt)
     | None => ret tt
     end ;;
     ret ai_response)
    (fun ex =>
       raise (HTTPException 500 ("AI processing error: " +:+ str_exn ex))).

Definition register_user (e : Env) (user : UserRegistration.t) : M Z :=
  do d <- read_db;
  match select_by_email (UserRegistration.email user) (users d) with
  | Some _ => raise (HTTPException 400 "User already exists")
  | None =>
      let password_hash := hash_password (UserRegistration.password user) in
      let user_id := new_user_id d in      (* cursor.lastrowid *)
      execute (InsertUser (UserRegistration.email user) password_hash)
              (current_timestamp e) ;;
      ret user_id
  end.

(** The successful reply of [login_user]: user_id, tier, message_count. *)
Definition login_user (user : UserLogin.t) : M (Z * string * Z) :=
  do d <- read_db;
  let password_hash := hash_password (UserLogin.password user) in
  match select_by_credentials (UserLogin.email user) password_hash (users d) with
  | None => raise (HTTPException 401 "Invalid credentials")
  | Some (user_id, row) =>
      ret (user_id, User.tier row, User.message_count row)
  end.

Definition health_check (e : Env) : M datetime := ret (now_check e).

(** SELECT tier, COUNT( * ) FROM users GROUP BY tier, and
    SELECT COUNT( * ) FROM messages. *)
Definition get_stats : M (gmap string Z * Z) :=
  do d <- read_db;
  let tier_counts : gmap string Z :=
    map_fold (fun _ u acc => <[User.tier u := get_or acc (User.tier u) 0 + 1]> acc)
             ∅ (users d) in
  ret (tier_counts, Z.of_nat (length (messages d))).

(** [init_database] on a new file: two empty tables. *)
Definition init_database : world := World (Database ∅ []) [].

(** ** Tiers *)

Definition known_tier (t : string) : Prop :=
  t = "terrestrial" \/ t = "aerial" \/ t = "celestial".

(** The maximum query length of each tier. *)
Definition tier_limits : list (string * Z) :=
  [("terrestrial", 200); ("aerial", 2000); ("celestial", 8000)].

(** ** The response selection as the specification words it

    Lowercase the text and test fixed keyword sets in a fixed priority
    order: greeting, help, upgrade inquiry, the tier's own keyword (analysis
    for aerial, quantum/predict for celestial); the first set with a word in
    the text names the tier's response string, the default string when none
    matches or the tier has no string of that name. *)

Definition priority_rules (tier : string) : list (list string * string) :=
  [ (["hello"; "hi"; "hey"; "greeting"], "greeting");
    (["help"; "what can you do"], "help");
    (["feature"; "upgrade"; "tier"], "upgrade") ]
  ++ (if String.eqb tier "aerial"
      then [(["analyze"; "analysis"], "analysis")] else [])
  ++ (if String.eqb tier "celestial"
      then [(["quantum"; "predict"], "quantum")] else []).

Definition first_matching_key (tier text : string) : string :=
  match List.find (fun r => Text.any_in (fst r) text) (priority_rules tier) with
  | Some r => snd r
  | None => "default"
  end.

Definition spec_response (tier query : string) : option string :=
  match responses !! tier with
  | None => None
  | Some tier_responses =>
      match tier_responses !! first_matching_key tier (Text.lower query) with
      | Some s => Some s
      | None => tier_responses !! "default"
      end
  end.

(** The bounds of [random.uniform] for the confidence of each tier. *)
Definition confidence_bounds : list (string * (Q * Q)) :=
  [ ("terrestrial", (6 # 10, 8 # 10)%Q);
    ("aerial", (75 # 100, 9 # 10)%Q);
    ("celestial", (85 # 100, 95 # 100)%Q) ].

(** ** Sample inputs *)

(** A request served at noon of day [d], the generator returning 1/2. *)
Definition noon (d : Z) : Env :=
  let t := DateTime d 43200000000 in
  MkEnv t t t t (fun _ => (1 # 2)%Q).

(** Some stored user has this email. *)
Definition email_taken (email : string) (us : gmap Z User.t) : Prop :=
  exists k u, us !! k = Some u /\ User.email u = email.

(** The row [register_user] inserts. *)
Definition new_user (e : Env) (user : UserRegistration.t) : User.t :=
  User.Row (UserRegistration.email user)
           (hash_password (UserRegistration.password user))
           "terrestrial" (current_timestamp e) 0 (current_timestamp e).

Definition alice : UserRegistration.t := UserRegistration.Make "alice@example.com" "secret".
Definition bob : UserRegistration.t := UserRegistration.Make "bob@example.com" "secret".

(** The tail of [process_query] after the two guards: the try block. *)
Definition serve (e : Env) (request : QueryRequest.t) : M AIResponse.t :=
  try_except
    (do ai_response <- generate_response e (QueryRequest.query request)
                         (QueryRequest.tier request);
     match truthy (QueryRequest.user_id request) with
     | Some user_id =>
         execute (InsertMessage user_id (QueryRequest.query request)
                    (AIResponse.response ai_response) (QueryRequest.tier request))
                 (current_timestamp e) ;;
         (if String.eqb (QueryRequest.tier request) "terrestrial" then
            execute (IncrementCount user_id) (current_timestamp e)
          else ret tt)
     | None => ret tt
     end ;;
     ret ai_response)
    (fun ex =>
       raise (HTTPException 500 ("AI processing error: " +:+ str_exn ex))).

(** ** What a served query leaves behind *)

(** The message row a served query of a logged-in user appends. *)
Definition new_message (e : Env) (request : QueryRequest.t) (user_id : Z)
    (response : string) (d : database) : Message.t :=
  Message.Row (next_rowid (Message.id <$> messages d)) user_id
              (QueryRequest.query request) response
              (QueryRequest.tier request) (current_timestamp e).

(** The database after the try block of [process_query] has run with the
    response [response]. *)
Definition served_db (e : Env) (request : QueryRequest.t) (response : string)
    (d : database) : database :=
  match truthy (QueryRequest.user_id request) with
  | Some user_id =>
      Database
        (if String.eqb (QueryRequest.tier request) "terrestrial"
         then alter increment_row user_id (users d) else users d)
        (messages d ++ [new_message e request user_id response d])
  | None => d
  end.

(** The statements that try block executes. *)
Definition served_writes (request : QueryRequest.t) (response : string)
  : list effect :=
  match truthy (QueryRequest.user_id request) with
  | Some user_id =>
      Execute (InsertMessage user_id (QueryRequest.query request) response
                 (QueryRequest.tier request))
      :: (if String.eqb (QueryRequest.tier request) "terrestrial"
          then [Execute (IncrementCount user_id)] else [])
  | None => []
  end.

(** ** The API as a transition system *)

(** The welcome endpoint returns a constant. *)
Definition root : M unit := ret tt.

(** One request to the server, with what it reads from outside. *)
Inductive call :=
  | Root
  | Query (e : Env) (request : QueryRequest.t)
  | Register (e : Env) (user : UserRegistration.t)
  | Login (user : UserLogin.t)
  | Health (e : Env)
  | Stats.

Definition is_return {A} (o : outcome A) : bool :=
  match o with
  | Return _ => true
  | Raise _ => false
  end.

(** Whether the request succeeded, and the world after it. *)
Definition handle (c : call) (w : world) : bool * world :=
  match c with
  | Root => let (o, w') := root w in (is_return o, w')
  | Query e request => let (o, w') := process_query e request w in (is_return o, w')
  | Register e user => let (o, w') := register_user e user w in (is_return o, w')
  | Login user => let (o, w') := login_user user w in (is_return o, w')
  | Health e => let (o, w') := health_check e w in (is_return o, w')
  | Stats => let (o, w') := get_stats w in (is_return o, w')
  end.

Fixpoint run (cs : list call) (w : world) : world :=
  match cs with
  | [] => w
  | c :: rest => run rest (snd (handle c w))
  end.

(** The worlds the server can be in: those a sequence of requests produces
    from the empty database. *)
Definition reachable (w : world) : Prop :=
  exists cs, w = run cs init_database.

(** A query sent for user [uid] at the free tier. *)
Definition free_query_of (uid : Z) (c : call) : bool :=
  match c with
  | Query _ request =>
      String.eqb (QueryRequest.tier request) "terrestrial"
      && bool_decide (QueryRequest.user_id request = Some uid)
  | _ => false
  end.

(** How many of the requests [cs], run from [w], are successful free-tier
    queries of user [uid]. *)
Fixpoint served_count (uid : Z) (cs : list call) (w : world) : nat :=
  match cs with
  | [] => 0
  | c :: rest =>
      (if free_query_of uid c && fst (handle c w) then 1 else 0)
      + served_count uid rest (snd (handle c w))
  end%nat.

(** The request reads the clock on day [d]. *)
Definition on_day (d : Z) (c : call) : Prop :=
  match c with
  | Query e _ => date (now_check e) = d /\ date (now_reset e) = d
  | _ => True
  end.

(** Rows have positive ids and counters that are not negative. *)
Definition users_wf (us : gmap Z User.t) : Prop :=
  forall k u, us !! k = Some u -> 0 < k /\ 0 <= User.message_count u.

(** The row the rate limiter leaves for the comparison with the cap. *)
Definition checked_row (e : Env) (u : User.t) : User.t :=
  if date (User.last_reset u) <? date (now_check e)
  then reset_row (now_reset e) u else u.

Definition quota_error : exn :=
  HTTPException 429
    "Daily message limit reached. Please upgrade or try again tomorrow.".

(** Fifty queries of user 1 at the free tier, all at noon of day [d]. *)
Definition fifty_queries (d : Z) : list call :=
  repeat (Query (noon d) (QueryRequest.Make "hello" "terrestrial" (Some 1))) 50.

(** The quota invariant of user [uid] on day [d], after [n] of the user's
    free-tier queries were served that day: the counter is at least [n], and
    once one was served the stored reset date is not before [d]. *)
Definition quota_inv (uid d : Z) (n : nat) (w : world) : Prop :=
  exists u,
    users (db w) !! uid = Some u
    /\ Z.of_nat n <= User.message_count u
    /\ ((0 < n)%nat -> d <= date (User.last_reset u)).

(** ** Invariants of the stored tables *)

(** No two rows have the same email (the UNIQUE constraint of the schema). *)
Definition emails_unique (us : gmap Z User.t) : Prop :=
  forall k1 k2 u1 u2,
    us !! k1 = Some u1 -> us !! k2 = Some u2 ->
    User.email u1 = User.email u2 -> k1 = k2.

(** The ids in use are 1, 2, ..., up to the number of rows. *)
Definition ids_dense (us : gmap Z User.t) : Prop :=
  forall k, is_Some (us !! k) <-> 1 <= k <= Z.of_nat (size us).

(** Counters stay within the daily cap and nobody leaves the free tier. *)
Definition users_capped (us : gmap Z User.t) : Prop :=
  forall k u, us !! k = Some u ->
    0 <= User.message_count u <= 50 /\ User.tier u = "terrestrial".

(** The message ids are 1, 2, ..., in the order of insertion. *)
Definition message_ids_dense (ms : list Message.t) : Prop :=
  Message.id <$> ms = seqZ 1 (Z.of_nat (length ms)).

(** The columns of a user row that no statement of the server updates. *)
Definition same_identity (u u' : User.t) : Prop :=
  User.email u' = User.email u
  /\ User.password_hash u' = User.password_hash u
  /\ User.tier u' = User.tier u
  /\ User.created_at u' = User.created_at u.

(** A lowercase hexadecimal digit. *)
Definition is_hex_char (c : ascii) : bool :=
  let z := Text.code c in
  ((48 <=? z) && (z <=? 57)) || ((97 <=? z) && (z <=? 102)).

Fixpoint string_forall (p : ascii -> bool) (s : string) : bool :=
  match s with
  | EmptyString => true
  | String c t => p c && string_forall p t
  end.

(** The keys of a tier dictionary [generate_response] can read, and the
    keys present in the dictionaries that it never reads. *)
Definition live_keys : list string :=
  ["greeting"; "help"; "upgrade"; "analysis"; "quantum"; "default"].
Definition dead_keys : list string := ["features"; "prediction"; "temporal"].

(** The bounds of [random.uniform] for the processing time of each tier. *)
Definition processing_bounds : list (string * (Q * Q)) :=
  [ ("terrestrial", (2, 4)%Q);
    ("aerial", (1, 2)%Q);
    ("celestial", (1 # 2, 1)%Q) ].

(** The request is rejected by neither guard of [process_query]: its tier is
    known and its text within the tier's limit. *)
Definition well_formed (request : QueryRequest.t) : Prop :=
  exists limit,
    In (QueryRequest.tier request, limit) tier_limits
    /\ Text.len (QueryRequest.query request) <= limit.

(** The world after alice registered at noon of day 1, and after bob
    followed. *)
Definition alice_world : world :=
  run [Register (noon 1) alice] init_database.
Definition alice_bob_world : world :=
  run [Register (noon 1) alice; Register (noon 1) bob] init_database.

(** The words [generate_response] takes for a greeting, a request for help
    and an inquiry about upgrades. *)
Definition greeting_words : list string := ["hello"; "hi"; "hey"; "greeting"].
Definition help_words : list string := ["help"; "what can you do"].
Definition upgrade_words : list string := ["feature"; "upgrade"; "tier"].

(** The three dictionaries of canned strings. *)
Definition tier_dicts : list (gmap string string) :=
  [terrestrial_responses; aerial_responses; celestial_responses].

(** * Properties *)

(** The constants as FIPS 180-4 lists them (first and last of each). *)
Example sha256_constants :
  length SHA256.K = 64%nat /\ length SHA256.H0 = 8%nat
  /\ SHA256.K !! 0%nat = Some 0x428a2f98 /\ SHA256.K !! 63%nat = Some 0xc67178f2
  /\ SHA256.H0 !! 0%nat = Some 0x6a09e667 /\ SHA256.H0 !! 7%nat = Some 0x5be0cd19.
Proof. vm_compute. repeat split. Qed.

(** Known answers (FIPS 180-4 and hashlib). *)
Example sha256_empty :
  SHA256.hexdigest [] =
  "e3b0c44298fc1c149afbf4c8996fb92427ae41e4649b934ca495991b7852b855"%string.
Proof. vm_compute. reflexivity. Qed.

Example sha256_abc :
  SHA256.hexdigest (Text.encode "abc") =
  "ba7816bf8f01cfea414140de5dae2223b00361a396177a9cb410ff61f20015ad"%string.
Proof. vm_compute. reflexivity. Qed.

Example sha256_padding_boundary :
  SHA256.hexdigest (repeat 97 56) =
  "b35439a4ac6f0948b6d6f9e3c6af0f5f590ce20f1bde7090ef7970686ec6738a"%string.
Proof. vm_compute. reflexivity. Qed.

Example sha256_two_blocks :
  SHA256.hexdigest (repeat 97 120) =
  "2f3d335432c70b580af0e8e1b3674a7c020d683aa5f73aaaedfdc55af904c21c"%string.
Proof. vm_compute. reflexivity. Qed.

Example sha256_latin1 :
  SHA256.hexdigest (Text.encode (String.concat "" (repeat (String (Text.chr 233) "") 30))) =
  "f96161c7582c75dfbae0062dd80f5447fad55546eea05fd785f982d194261aae"%string.
Proof. vm_compute. reflexivity. Qed.

(** ** Text *)

Example lower_ascii : Text.lower "Hello, WORLD 42!" = "hello, world 42!".
Proof. reflexivity. Qed.

(** Latin-1 capitals are lowered, the multiplication sign is not a letter. *)
Example lower_latin1 :
  Text.lower_char (Text.chr 201) = Text.chr 233
  /\ Text.lower_char (Text.chr 215) = Text.chr 215
  /\ Text.lower_char (Text.chr 223) = Text.chr 223.
Proof. repeat split. Qed.

Example contains_substring :
  Text.contains "hi" "this" = true /\ Text.contains "hey" "they" = true
  /\ Text.contains "help" "hel p" = false /\ Text.contains "tier" "" = false.
Proof. repeat split. Qed.

Example encode_two_bytes : Text.encode (String (Text.chr 233) "a") = [195; 169; 97].
Proof. reflexivity. Qed.

(** ** Tiers *)

(** A dictionary literal keyed by the three tiers. *)
Lemma tier_dict_lookup {A} (a b c : A) (t : string) :
  (list_to_map [("terrestrial", a); ("aerial", b); ("celestial", c)]
     : gmap string A) !! t =
    if decide (t = "terrestrial") then Some a
    else if decide (t = "aerial") then Some b
    else if decide (t = "celestial") then Some c
    else None.
Proof.
  simpl.
  repeat (rewrite lookup_insert; case_decide; subst;
          [ repeat (case_decide; try congruence) | ]).
  rewrite lookup_empty. repeat (case_decide; try congruence).
Qed.

Lemma max_lengths_lookup (t : string) :
  max_lengths !! t =
    if decide (t = "terrestrial") then Some 200
    else if decide (t = "aerial") then Some 2000
    else if decide (t = "celestial") then Some 8000
    else None.
Proof. unfold max_lengths. apply tier_dict_lookup. Qed.

Lemma max_lengths_known (t : string) (limit : Z) :
  max_lengths !! t = Some limit -> known_tier t.
Proof.
  rewrite max_lengths_lookup. unfold known_tier.
  repeat case_decide; intros; try discriminate; auto.
Qed.

Lemma max_lengths_unknown (t : string) :
  ~ known_tier t -> max_lengths !! t = None.
Proof.
  intros Hk. rewrite max_lengths_lookup. unfold known_tier in Hk.
  repeat case_decide; try reflexivity; exfalso; apply Hk; auto.
Qed.

(** ** Length validation and unknown tiers *)

(** C5. A request whose tier is none of terrestrial, aerial, celestial makes
    [process_query] raise the KeyError of [max_lengths[request.tier]]: the
    lookup is before the try block, so the error is not turned into an HTTP
    error, nothing is slept or written, and the interface accepts any string
    as tier. *)
Theorem process_query_unknown_tier (e : Env) (request : QueryRequest.t) (w : world) :
  QueryRequest.tier request <> "terrestrial" ->
  QueryRequest.tier request <> "aerial" ->
  QueryRequest.tier request <> "celestial" ->
  process_query e request w = (Raise (KeyError (QueryRequest.tier request)), w).
Proof.
  intros H1 H2 H3.
  unfold process_query, bind, getitem.
  rewrite max_lengths_unknown; [reflexivity |].
  unfold known_tier. intuition.
Qed.

Lemma process_query_unknown_tier_witness :
  process_query
    (noon 1) (QueryRequest.Make "hello" "premium" (Some 7)) init_database
  = (Raise (KeyError "premium"), init_database).
Proof.
  apply (process_query_unknown_tier (noon 1)
           (QueryRequest.Make "hello" "premium" (Some 7)) init_database);
    simpl; discriminate.
Defined.

Lemma tier_limits_lookup (t : string) (limit : Z) :
  In (t, limit) tier_limits -> max_lengths !! t = Some limit.
Proof.
  unfold tier_limits. simpl.
  intros [H | [H | [H | []]]]; inversion H; subst; reflexivity.
Qed.

(** C2. For each tier, a query longer than the tier's maximum (200 for
    terrestrial, 2000 for aerial, 8000 for celestial) is rejected with HTTP
    400, and the world is returned as it was: nothing was slept, so no
    response was generated, and nothing was written. *)
Theorem process_query_too_long (e : Env) (request : QueryRequest.t) (w : world)
    (limit : Z) :
  In (QueryRequest.tier request, limit) tier_limits ->
  limit < Text.len (QueryRequest.query request) ->
  process_query e request w =
    (Raise (HTTPException 400
              ("Query too long for " +:+ QueryRequest.tier request
               +:+ " tier. Maximum " +:+ pretty limit +:+ " characters.")),
     w).
Proof.
  intros Hl Hlen. apply tier_limits_lookup in Hl.
  unfold process_query, bind, getitem. rewrite Hl. simpl.
  apply Z.ltb_lt in Hlen. rewrite Hlen. reflexivity.
Qed.

Lemma process_query_too_long_witness :
  process_query (noon 1)
    (QueryRequest.Make (String.concat "" (repeat "a" 201)) "terrestrial" (Some 1))
    init_database
  = (Raise (HTTPException 400
       "Query too long for terrestrial tier. Maximum 200 characters."),
     init_database).
Proof.
  apply (process_query_too_long (noon 1)
           (QueryRequest.Make (String.concat "" (repeat "a" 201)) "terrestrial" (Some 1))
           init_database 200).
  - simpl. left. reflexivity.
  - vm_compute. reflexivity.
Defined.

(** ** The response generator *)

Lemma known_tier_cases (t : string) (P : string -> Prop) :
  known_tier t -> P "terrestrial" -> P "aerial" -> P "celestial" -> P t.
Proof. intros [-> | [-> | ->]]; auto. Qed.

Arguments Text.any_in : simpl never.

(** Every tier has the strings the if/elif chain reads without a default. *)
Lemma canned_strings (t : string) (tr : gmap string string) :
  responses !! t = Some tr ->
  is_Some (tr !! "greeting") /\ is_Some (tr !! "default")
  /\ (t = "aerial" -> is_Some (tr !! "analysis"))
  /\ (t = "celestial" -> is_Some (tr !! "quantum")).
Proof.
  unfold responses. rewrite tier_dict_lookup.
  repeat case_decide; intros Hr; inversion Hr; subst;
    repeat split; intros; try discriminate;
    (eexists; vm_compute; reflexivity).
Qed.

(** The if/elif chain returns the string the priority rules name. *)
Lemma select_response_spec (t : string) (tr : gmap string string)
    (ql : string) (w : world) :
  responses !! t = Some tr ->
  exists s,
    select_response t tr ql w = (Return s, w)
    /\ match tr !! first_matching_key t ql with
       | Some s' => Some s'
       | None => tr !! "default"
       end = Some s.
Proof.
  intros Hr.
  destruct (canned_strings t tr Hr) as ([g Hg] & [d Hd] & Ha & Hq).
  unfold select_response, first_matching_key, priority_rules.
  unfold bind, getitem, ret, get_or.
  destruct (String.eqb_spec t "aerial") as [Ea | Ea];
    destruct (String.eqb_spec t "celestial") as [Ec | Ec];
    cbn [app List.find fst snd andb];
    repeat (match goal with
            | |- context [Text.any_in ?ws ql] => destruct (Text.any_in ws ql)
            end; cbn [List.find fst snd andb]);
    try (destruct (Ha Ea) as [a Hx]; rewrite ?Hx);
    try (destruct (Hq Ec) as [q Hy]; rewrite ?Hy);
    rewrite ?Hg, ?Hd;
    repeat (match goal with
            | |- context [tr !! ?k] => destruct (tr !! k)
            end);
    cbn [default];
    eexists; (split; reflexivity).
Qed.

Lemma responses_known (t : string) : known_tier t -> is_Some (responses !! t).
Proof.
  unfold responses. rewrite tier_dict_lookup.
  intros [-> | [-> | ->]]; repeat (case_decide; try congruence); eauto.
Qed.

(** For a known tier the generator sleeps once and returns: the response is
    the one the priority rules name, the confidence a [uniform] draw within
    the tier's bounds. *)
Lemma generate_response_known (e : Env) (query tier : string) (w : world) :
  known_tier tier ->
  exists resp conf secs,
    generate_response e query tier w =
      (Return (AIResponse.Make resp conf tier secs (now_reply e)),
       World (db w) (log w ++ [Sleep secs]))
    /\ spec_response tier query = Some resp
    /\ exists lo hi k, In (tier, (lo, hi)) confidence_bounds
                       /\ conf = uniform lo hi (random e k).
Proof.
  intros Hk.
  destruct (responses_known tier Hk) as [tr Hr].
  unfold generate_response, spec_response.
  unfold bind at 1. unfold getitem at 1. rewrite tier_dict_lookup.
  destruct Hk as [-> | [-> | ->]];
    repeat (case_decide; try congruence);
    unfold ret at 1; unfold bind at 1; unfold emit;
    unfold bind at 1; unfold getitem at 1; rewrite Hr; unfold ret at 1;
    unfold bind at 1;
    match goal with
    | |- context [select_response ?t tr ?q ?w'] =>
        destruct (select_response_spec t tr q w' Hr) as (s & Hs & Hspec);
        rewrite Hs
    end;
    unfold bind at 1; unfold getitem at 1; rewrite tier_dict_lookup;
    repeat (case_decide; try congruence);
    unfold ret at 1; unfold bind at 1; unfold getitem at 1;
    rewrite tier_dict_lookup; repeat (case_decide; try congruence);
    unfold ret;
    do 3 eexists; (split; [reflexivity |]); (split; [exact Hspec |]);
    do 3 eexists; (split; [| reflexivity]); simpl; auto.
Qed.

Lemma confidence_bounds_range (t : string) (lo hi r : Q) :
  In (t, (lo, hi)) confidence_bounds ->
  (0 <= r < 1)%Q ->
  (lo <= uniform lo hi r <= hi)%Q /\ (0 <= lo)%Q /\ (hi <= 1)%Q.
Proof.
  unfold confidence_bounds. simpl.
  intros [H | [H | [H | []]]] Hr; inversion H; subst; unfold uniform;
    (split; [| split]); lra.
Qed.

(** C8. For every query text and known tier, [generate_response] returns
    the string chosen by lowercasing the text and testing the keyword sets in
    the order greeting, help, upgrade inquiry, tier keyword (analysis for
    aerial, quantum/predict for celestial), default: the tier's string for
    the first set that matches. *)
Theorem generate_response_priority (e : Env) (query tier : string) (w : world) :
  known_tier tier ->
  exists r w',
    generate_response e query tier w = (Return r, w')
    /\ spec_response tier query = Some (AIResponse.response r).
Proof.
  intros Hk.
  destruct (generate_response_known e query tier w Hk)
    as (resp & conf & secs & Hg & Hs & _).
  eexists. eexists. split; [exact Hg | exact Hs].
Qed.

Lemma generate_response_priority_witness :
  exists r w',
    generate_response (noon 1) "Help me analyze data" "aerial" init_database
      = (Return r, w')
    /\ spec_response "aerial" "Help me analyze data"
       = Some (AIResponse.response r).
Proof.
  apply (generate_response_priority (noon 1) "Help me analyze data" "aerial"
           init_database).
  right. left. reflexivity.
Defined.

(** The order of the tests, on texts that match several sets. *)
Example priority_greeting_over_help :
  spec_response "terrestrial" "HELLO, I need help with my upgrade" =
  terrestrial_responses !! "greeting".
Proof. vm_compute. reflexivity. Qed.

Example priority_help_over_upgrade :
  spec_response "terrestrial" "Please help me upgrade" =
  terrestrial_responses !! "help".
Proof. vm_compute. reflexivity. Qed.

Example priority_help_over_analysis :
  spec_response "aerial" "Help me analyze data" =
  aerial_responses !! "default".
Proof. vm_compute. reflexivity. Qed.

Example priority_tier_keyword :
  spec_response "celestial" "Predict the weather" =
  celestial_responses !! "quantum"
  /\ spec_response "aerial" "Predict the weather" =
     aerial_responses !! "default".
Proof. split; vm_compute; reflexivity. Qed.

(** C10. For the terrestrial tier and the text "hello" the generator returns
    the terrestrial greeting with a confidence in [0.6, 0.8]; for every known
    tier the confidence lies in [0, 1].  The generator's values are taken in
    [0, 1), as [random.random] returns them. *)
Theorem hello_confidence (e : Env) (w : world) :
  (forall k, 0 <= random e k < 1)%Q ->
  (exists conf secs w',
     generate_response e "hello" "terrestrial" w =
       (Return (AIResponse.Make
          "Hello! I'm Synova Terrestrial, your free AI assistant. How can I help you today?"
          conf "terrestrial" secs (now_reply e)), w')
     /\ (6 # 10 <= conf <= 8 # 10)%Q)
  /\ (forall query tier, known_tier tier ->
      exists r w',
        generate_response e query tier w = (Return r, w')
        /\ (0 <= AIResponse.confidence r <= 1)%Q).
Proof.
  intros Hrand. split.
  - destruct (generate_response_known e "hello" "terrestrial" w)
      as (resp & conf & secs & Hg & Hs & lo & hi & k & Hin & ->).
    { left. reflexivity. }
    assert (resp = "Hello! I'm Synova Terrestrial, your free AI assistant. How can I help you today?") as ->.
    { vm_compute in Hs. congruence. }
    do 3 eexists. split; [exact Hg |].
    pose proof (confidence_bounds_range _ _ _ _ Hin (Hrand k)) as [Hb _].
    unfold confidence_bounds in Hin. simpl in Hin.
    destruct Hin as [H | [H | [H | []]]]; inversion H; subst. exact Hb.
  - intros query tier Hk.
    destruct (generate_response_known e query tier w Hk)
      as (resp & conf & secs & Hg & Hs & lo & hi & k & Hin & ->).
    do 2 eexists. split; [exact Hg |]. simpl.
    pose proof (confidence_bounds_range _ _ _ _ Hin (Hrand k)) as (Hb & Hlo & Hhi).
    lra.
Qed.

Lemma hello_confidence_witness :
  (exists conf secs w',
     generate_response (noon 1) "hello" "terrestrial" init_database =
       (Return (AIResponse.Make
          "Hello! I'm Synova Terrestrial, your free AI assistant. How can I help you today?"
          conf "terrestrial" secs (now_reply (noon 1))), w')
     /\ (6 # 10 <= conf <= 8 # 10)%Q)
  /\ (forall query tier, known_tier tier ->
      exists r w',
        generate_response (noon 1) query tier init_database = (Return r, w')
        /\ (0 <= AIResponse.confidence r <= 1)%Q).
Proof.
  apply (hello_confidence (noon 1) init_database).
  intros k. simpl. split; [discriminate | reflexivity].
Defined.

(** ** Registration and login *)

Lemma foldr_max_ge (l : list Z) (a x : Z) :
  x = a \/ x ∈ l -> x <= foldr Z.max a l.
Proof.
  induction l as [| y l IH]; simpl; intros [Hx | Hx].
  - lia.
  - inversion Hx.
  - specialize (IH (or_introl Hx)). lia.
  - apply elem_of_cons in Hx as [Hx | Hx]; [lia |].
    specialize (IH (or_intror Hx)). lia.
Qed.

Lemma next_rowid_gt (ids : list Z) (i : Z) : i ∈ ids -> i < next_rowid ids.
Proof.
  destruct ids as [| j rest]; [intros H; inversion H |].
  unfold next_rowid. intros Hin.
  apply elem_of_cons in Hin.
  pose proof (foldr_max_ge rest j i Hin). lia.
Qed.

Lemma new_user_id_fresh (d : database) : users d !! new_user_id d = None.
Proof.
  destruct (users d !! new_user_id d) as [u |] eqn:E; [| reflexivity].
  exfalso. apply elem_of_map_to_list in E.
  assert (new_user_id d ∈ (map_to_list (users d)).*1) as Hin.
  { apply list_elem_of_fmap. exists (new_user_id d, u). split; [reflexivity | exact E]. }
  apply next_rowid_gt in Hin. unfold new_user_id in Hin at 1. lia.
Qed.

Lemma select_by_email_taken (email : string) (us : gmap Z User.t) :
  email_taken email us -> is_Some (select_by_email email us).
Proof.
  intros (k & u & Hk & He). unfold select_by_email.
  destruct (list_find _ _) as [[i kv] |] eqn:E; [eexists; reflexivity |].
  exfalso. apply list_find_None in E.
  rewrite Forall_forall in E.
  apply (E (k, u)); [| exact He].
  apply elem_of_map_to_list. exact Hk.
Qed.

Lemma select_by_email_fresh (email : string) (us : gmap Z User.t) :
  ~ email_taken email us -> select_by_email email us = None.
Proof.
  intros Hn. unfold select_by_email.
  destruct (list_find _ _) as [[i [k u]] |] eqn:E; [| reflexivity].
  exfalso. apply list_find_Some in E as (Hl & He & _).
  apply Hn. exists k, u. split; [| exact He].
  apply elem_of_map_to_list. eapply list_elem_of_lookup_2. exact Hl.
Qed.

(** The two outcomes of [register_user]. *)
Lemma register_user_taken (e : Env) (user : UserRegistration.t) (w : world) :
  email_taken (UserRegistration.email user) (users (db w)) ->
  register_user e user w = (Raise (HTTPException 400 "User already exists"), w).
Proof.
  intros Ht. apply select_by_email_taken in Ht as [r Hr].
  unfold register_user, bind, read_db. rewrite Hr. reflexivity.
Qed.

Lemma register_user_fresh (e : Env) (user : UserRegistration.t) (w : world) :
  ~ email_taken (UserRegistration.email user) (users (db w)) ->
  register_user e user w =
    (Return (new_user_id (db w)),
     World (Database (<[new_user_id (db w) := new_user e user]> (users (db w)))
                     (messages (db w)))
           (log w ++ [Execute (InsertUser (UserRegistration.email user)
                        (hash_password (UserRegistration.password user)))])).
Proof.
  intros Hf. apply select_by_email_fresh in Hf.
  unfold register_user, bind, read_db. rewrite Hf. reflexivity.
Qed.

(** C6. Registering an email some stored user already has is rejected with
    HTTP 400 "User already exists" and leaves the world as it was (no row is
    created); registering a fresh email succeeds and returns the id of the
    new row, an id no row had before. *)
Theorem register_user_conflict (e : Env) (user : UserRegistration.t) (w : world) :
  (email_taken (UserRegistration.email user) (users (db w)) ->
   register_user e user w =
     (Raise (HTTPException 400 "User already exists"), w))
  /\ (~ email_taken (UserRegistration.email user) (users (db w)) ->
      exists user_id w',
        register_user e user w = (Return user_id, w')
        /\ users (db w) !! user_id = None
        /\ users (db w') = <[user_id := new_user e user]> (users (db w))
        /\ messages (db w') = messages (db w)).
Proof.
  split.
  - apply register_user_taken.
  - intros Hf. exists (new_user_id (db w)). eexists.
    split; [apply register_user_fresh; exact Hf |].
    split; [apply new_user_id_fresh |]. split; reflexivity.
Qed.

(** The table after alice registers in an empty database. *)
Lemma users_after_alice :
  users (db (snd (register_user (noon 1) alice init_database)))
  = {[ 1 := new_user (noon 1) alice ]}.
Proof. vm_compute. reflexivity. Qed.

Lemma register_user_conflict_witness :
  let w1 := snd (register_user (noon 1) alice init_database) in
  register_user (noon 2) alice w1
    = (Raise (HTTPException 400 "User already exists"), w1)
  /\ exists user_id w',
       register_user (noon 2) bob w1 = (Return user_id, w')
       /\ users (db w1) !! user_id = None
       /\ users (db w') = <[user_id := new_user (noon 2) bob]> (users (db w1))
       /\ messages (db w') = messages (db w1).
Proof.
  intros w1. split.
  - apply (proj1 (register_user_conflict (noon 2) alice w1)).
    exists 1, (new_user (noon 1) alice). split; vm_compute; reflexivity.
  - apply (proj2 (register_user_conflict (noon 2) bob w1)).
    intros (k & u & Hk & He). subst w1. rewrite users_after_alice in Hk.
    apply lookup_singleton_Some in Hk as [_ <-]. vm_compute in He. discriminate He.
Defined.

Lemma register_user_Return (e : Env) (user : UserRegistration.t) (w w' : world)
    (user_id : Z) :
  register_user e user w = (Return user_id, w') ->
  users (db w) !! user_id = None
  /\ users (db w') = <[user_id := new_user e user]> (users (db w)).
Proof.
  intros Hreg.
  destruct (select_by_email (UserRegistration.email user) (users (db w)))
    as [r |] eqn:E.
  - unfold register_user, bind, read_db in Hreg. rewrite E in Hreg.
    discriminate.
  - unfold register_user, bind, read_db in Hreg. rewrite E in Hreg.
    inversion Hreg; subst. split; [apply new_user_id_fresh | reflexivity].
Qed.

(** C3, as the code has it.  The stored credential is the unsalted SHA-256
    digest of the password, a function of the password alone: two users
    registered with the same password get two rows with the same stored
    hash. *)
Theorem register_user_unsalted (e1 e2 : Env) (u1 u2 : UserRegistration.t)
    (w0 w1 w2 : world) (id1 id2 : Z) :
  register_user e1 u1 w0 = (Return id1, w1) ->
  register_user e2 u2 w1 = (Return id2, w2) ->
  UserRegistration.password u1 = UserRegistration.password u2 ->
  exists r1 r2,
    id1 <> id2
    /\ users (db w2) !! id1 = Some r1
    /\ users (db w2) !! id2 = Some r2
    /\ User.password_hash r1 = hash_password (UserRegistration.password u1)
    /\ User.password_hash r2 = User.password_hash r1.
Proof.
  intros H1 H2 Hpw.
  apply register_user_Return in H1 as [_ Hu1].
  apply register_user_Return in H2 as [Hf2 Hu2].
  assert (Hne : id1 <> id2).
  { intros ->. rewrite Hu1, lookup_insert_eq in Hf2. discriminate. }
  exists (new_user e1 u1), (new_user e2 u2).
  split; [exact Hne |].
  rewrite Hu2, Hu1.
  split; [rewrite lookup_insert_ne by congruence; apply lookup_insert_eq |].
  split; [apply lookup_insert_eq |].
  unfold new_user; simpl. split; [reflexivity | rewrite Hpw; reflexivity].
Qed.

Lemma register_user_unsalted_witness :
  exists r1 r2,
    1 <> 2
    /\ users (db (snd (register_user (noon 1) bob
                         (snd (register_user (noon 1) alice init_database)))))
         !! 1 = Some r1
    /\ users (db (snd (register_user (noon 1) bob
                         (snd (register_user (noon 1) alice init_database)))))
         !! 2 = Some r2
    /\ User.password_hash r1 = hash_password (UserRegistration.password alice)
    /\ User.password_hash r2 = User.password_hash r1.
Proof.
  apply (register_user_unsalted (noon 1) (noon 1) alice bob init_database
           (snd (register_user (noon 1) alice init_database))).
  - vm_compute. reflexivity.
  - vm_compute. reflexivity.
  - reflexivity.
Defined.

(** C3, as stated, fails: alice and bob, two users with the same password,
    are stored with identical hashes. *)
Lemma same_password_same_hash :
  exists w1 w2 r1 r2,
    register_user (noon 1) alice init_database = (Return 1, w1)
    /\ register_user (noon 1) bob w1 = (Return 2, w2)
    /\ UserRegistration.email alice <> UserRegistration.email bob
    /\ UserRegistration.password alice = UserRegistration.password bob
    /\ users (db w2) !! 1 = Some r1
    /\ users (db w2) !! 2 = Some r2
    /\ User.password_hash r1 = User.password_hash r2.
Proof.
  do 4 eexists.
  split; [vm_compute; reflexivity |].
  split; [vm_compute; reflexivity |].
  split; [discriminate |].
  split; [reflexivity |].
  split; [vm_compute; reflexivity |].
  split; [vm_compute; reflexivity |].
  reflexivity.
Qed.

(** C7. When no stored row has both the given email and the hash of the
    given password, [login_user] raises HTTP 401 "Invalid credentials" and
    changes nothing; the reply is the same whether the email is unknown or
    known with another password. *)
Theorem login_user_wrong_password (user : UserLogin.t) (w : world) :
  (forall k u, users (db w) !! k = Some u ->
     User.email u = UserLogin.email user ->
     User.password_hash u <> hash_password (UserLogin.password user)) ->
  login_user user w = (Raise (HTTPException 401 "Invalid credentials"), w).
Proof.
  intros Hbad. unfold login_user, bind, read_db, select_by_credentials.
  destruct (list_find _ _) as [[i [k u]] |] eqn:E; [| reflexivity].
  exfalso. apply list_find_Some in E as (Hl & [He Hh] & _). simpl in *.
  apply (Hbad k u); [| exact He | exact Hh].
  apply elem_of_map_to_list. eapply list_elem_of_lookup_2. exact Hl.
Qed.

Lemma login_user_wrong_password_witness :
  let w1 := snd (register_user (noon 1) alice init_database) in
  login_user (UserLogin.Make "alice@example.com" "Secret") w1
    = (Raise (HTTPException 401 "Invalid credentials"), w1)
  /\ login_user (UserLogin.Make "carol@example.com" "Secret") w1
    = (Raise (HTTPException 401 "Invalid credentials"), w1).
Proof.
  intros w1. split.
  - apply (login_user_wrong_password
             (UserLogin.Make "alice@example.com" "Secret") w1).
    intros k u Hk _. subst w1. rewrite users_after_alice in Hk.
    apply lookup_singleton_Some in Hk as [_ <-]. vm_compute. discriminate.
  - apply (login_user_wrong_password
             (UserLogin.Make "carol@example.com" "Secret") w1).
    intros k u Hk He. subst w1. rewrite users_after_alice in Hk.
    apply lookup_singleton_Some in Hk as [_ <-]. vm_compute in He. discriminate He.
Defined.

Example login_user_right_password :
  fst (login_user (UserLogin.Make "alice@example.com" "secret")
         (snd (register_user (noon 1) alice init_database)))
  = Return (1, "terrestrial", 0).
Proof. vm_compute. reflexivity. Qed.

(** ** The rate limiter *)

Lemma verify_user_limits_paid (e : Env) (user_id : Z) (tier : string) (w : world) :
  tier <> "terrestrial" -> verify_user_limits e user_id tier w = (Return true, w).
Proof.
  intros Ht. unfold verify_user_limits.
  destruct (String.eqb_spec tier "terrestrial"); [contradiction | reflexivity].
Qed.

Lemma verify_user_limits_missing (e : Env) (user_id : Z) (w : world) :
  users (db w) !! user_id = None ->
  verify_user_limits e user_id "terrestrial" w = (Return false, w).
Proof.
  intros Hu. unfold verify_user_limits. simpl.
  unfold bind, read_db. rewrite Hu. reflexivity.
Qed.

Lemma verify_user_limits_reset (e : Env) (user_id : Z) (w : world) (u : User.t) :
  users (db w) !! user_id = Some u ->
  date (User.last_reset u) < date (now_check e) ->
  verify_user_limits e user_id "terrestrial" w =
    (Return true,
     World (Database (<[user_id := reset_row (now_reset e) u]> (users (db w)))
                     (messages (db w)))
           (log w ++ [Execute (ResetCount user_id (now_reset e))])).
Proof.
  intros Hu Hd. unfold verify_user_limits. simpl.
  unfold bind at 1. unfold read_db. rewrite Hu.
  apply Z.ltb_lt in Hd. rewrite Hd.
  unfold bind, execute, ret, exec. simpl.
  f_equal. f_equal. f_equal.
  apply map_eq. intros k. rewrite lookup_alter, lookup_insert.
  case_decide; subst; [rewrite Hu |]; reflexivity.
Qed.

Lemma verify_user_limits_same_day (e : Env) (user_id : Z) (w : world) (u : User.t) :
  users (db w) !! user_id = Some u ->
  date (now_check e) <= date (User.last_reset u) ->
  verify_user_limits e user_id "terrestrial" w =
    (Return (User.message_count u <? 50), w).
Proof.
  intros Hu Hd. unfold verify_user_limits. simpl.
  unfold bind at 1. unfold read_db. rewrite Hu.
  apply Z.ltb_ge in Hd. rewrite Hd. reflexivity.
Qed.

(** ** The query endpoint, case by case *)

Lemma serve_known (e : Env) (request : QueryRequest.t) (w : world) :
  known_tier (QueryRequest.tier request) ->
  exists r secs,
    serve e request w =
      (Return r,
       World (served_db e request (AIResponse.response r) (db w))
             (log w ++ Sleep secs :: served_writes request (AIResponse.response r)))
    /\ spec_response (QueryRequest.tier request) (QueryRequest.query request)
       = Some (AIResponse.response r).
Proof.
  intros Hk.
  destruct (generate_response_known e (QueryRequest.query request)
              (QueryRequest.tier request) w Hk)
    as (resp & conf & secs & Hg & Hs & _).
  exists (AIResponse.Make resp conf (QueryRequest.tier request) secs (now_reply e)), secs.
  split; [| exact Hs].
  unfold serve, try_except. unfold bind at 1. rewrite Hg.
  unfold served_db, served_writes, new_message.
  destruct (truthy (QueryRequest.user_id request)) as [uid |]; simpl.
  - destruct (String.eqb (QueryRequest.tier request) "terrestrial");
      unfold bind, execute, ret; simpl; rewrite <- ?app_assoc; reflexivity.
  - unfold bind, ret. simpl. reflexivity.
Qed.

(** [process_query] when the length test fails. *)
Lemma length_guard_rejects (e : Env) (request : QueryRequest.t) (w : world)
    (limit : Z) :
  max_lengths !! QueryRequest.tier request = Some limit ->
  limit < Text.len (QueryRequest.query request) ->
  process_query e request w =
    (Raise (HTTPException 400
              ("Query too long for " +:+ QueryRequest.tier request
               +:+ " tier. Maximum " +:+ pretty limit +:+ " characters.")),
     w).
Proof.
  intros Hl Hlen.
  unfold process_query, bind, getitem. rewrite Hl. simpl.
  apply Z.ltb_lt in Hlen. rewrite Hlen. reflexivity.
Qed.

(** [process_query] once the length test has passed. *)
Lemma process_query_guarded (e : Env) (request : QueryRequest.t) (w : world)
    (limit : Z) :
  max_lengths !! QueryRequest.tier request = Some limit ->
  Text.len (QueryRequest.query request) <= limit ->
  process_query e request w =
    match truthy (QueryRequest.user_id request) with
    | Some user_id =>
        if String.eqb (QueryRequest.tier request) "terrestrial" then
          match verify_user_limits e user_id (QueryRequest.tier request) w with
          | (Return true, w1) => serve e request w1
          | (Return false, w1) => (Raise quota_error, w1)
          | (Raise ex, w1) => (Raise ex, w1)
          end
        else serve e request w
    | None => serve e request w
    end.
Proof.
  intros Hl Hlen. unfold process_query. cbv zeta.
  change (try_except _ _) with (serve e request).
  unfold bind at 1. unfold getitem. rewrite Hl. unfold ret at 1.
  unfold bind at 1. apply Z.ltb_ge in Hlen. rewrite Hlen. unfold ret at 1.
  unfold bind at 1.
  destruct (truthy (QueryRequest.user_id request)) as [uid |]; [| reflexivity].
  destruct (String.eqb (QueryRequest.tier request) "terrestrial"); [| reflexivity].
  unfold bind at 1.
  destruct (verify_user_limits e uid (QueryRequest.tier request) w)
    as [[[|] | ex] w1]; reflexivity.
Qed.

(** A free-tier query of a logged-in user, within the length limit. *)
Lemma process_query_free (e : Env) (request : QueryRequest.t) (w : world)
    (user_id : Z) :
  QueryRequest.tier request = "terrestrial" ->
  truthy (QueryRequest.user_id request) = Some user_id ->
  Text.len (QueryRequest.query request) <= 200 ->
  process_query e request w =
    match users (db w) !! user_id with
    | None => (Raise quota_error, w)
    | Some u =>
        if date (User.last_reset u) <? date (now_check e) then
          serve e request
            (World (Database (<[user_id := reset_row (now_reset e) u]> (users (db w)))
                             (messages (db w)))
                   (log w ++ [Execute (ResetCount user_id (now_reset e))]))
        else if User.message_count u <? 50 then serve e request w
        else (Raise quota_error, w)
    end.
Proof.
  intros Ht Hid Hlen.
  rewrite (process_query_guarded e request w 200); [| rewrite Ht; reflexivity | exact Hlen].
  rewrite Hid, Ht. simpl String.eqb.
  destruct (users (db w) !! user_id) as [u |] eqn:Hu.
  - destruct (Z.ltb_spec (date (User.last_reset u)) (date (now_check e))) as [Hd | Hd].
    + rewrite (verify_user_limits_reset e user_id w u Hu Hd). reflexivity.
    + rewrite (verify_user_limits_same_day e user_id w u Hu Hd).
      destruct (User.message_count u <? 50); reflexivity.
  - rewrite (verify_user_limits_missing e user_id w Hu). reflexivity.
Qed.

(** A query that is not subject to the quota: anonymous, or at a paid tier. *)
Lemma process_query_unlimited (e : Env) (request : QueryRequest.t) (w : world)
    (limit : Z) :
  max_lengths !! QueryRequest.tier request = Some limit ->
  Text.len (QueryRequest.query request) <= limit ->
  truthy (QueryRequest.user_id request) = None
  \/ QueryRequest.tier request <> "terrestrial" ->
  process_query e request w = serve e request w.
Proof.
  intros Hl Hlen Hfree.
  rewrite (process_query_guarded e request w limit Hl Hlen).
  destruct (truthy (QueryRequest.user_id request)) as [uid |]; [| reflexivity].
  destruct (String.eqb_spec (QueryRequest.tier request) "terrestrial") as [Ht | Ht];
    [| reflexivity].
  destruct Hfree as [Hn | Hn]; [discriminate | contradiction].
Qed.

(** Every way [process_query] can go: rejected with the world as it was;
    served from the world as it was; or, on a new day for a free-tier user,
    served after the reset of the user's row. *)
Lemma process_query_outcome (e : Env) (request : QueryRequest.t) (w : world) :
  (exists ex, process_query e request w = (Raise ex, w))
  \/ (known_tier (QueryRequest.tier request)
      /\ process_query e request w = serve e request w
      /\ (truthy (QueryRequest.user_id request) = None
          \/ QueryRequest.tier request <> "terrestrial"
          \/ exists user_id u,
               truthy (QueryRequest.user_id request) = Some user_id
               /\ users (db w) !! user_id = Some u
               /\ date (now_check e) <= date (User.last_reset u)
               /\ User.message_count u < 50))
  \/ (exists user_id u,
        QueryRequest.tier request = "terrestrial"
        /\ truthy (QueryRequest.user_id request) = Some user_id
        /\ users (db w) !! user_id = Some u
        /\ date (User.last_reset u) < date (now_check e)
        /\ process_query e request w =
             serve e request
               (World (Database (<[user_id := reset_row (now_reset e) u]> (users (db w)))
                                (messages (db w)))
                      (log w ++ [Execute (ResetCount user_id (now_reset e))]))).
Proof.
  destruct (max_lengths !! QueryRequest.tier request) as [limit |] eqn:Hl.
  2:{ left. exists (KeyError (QueryRequest.tier request)).
      unfold process_query, bind, getitem. rewrite Hl. reflexivity. }
  pose proof (max_lengths_known _ _ Hl) as Hk.
  destruct (Z.ltb_spec limit (Text.len (QueryRequest.query request))) as [Hlen | Hlen].
  { left. eexists. unfold process_query, bind, getitem. rewrite Hl. simpl.
    apply Z.ltb_lt in Hlen. rewrite Hlen. reflexivity. }
  destruct (truthy (QueryRequest.user_id request)) as [uid |] eqn:Hid.
  2:{ right. left. split; [exact Hk |]. split; [| left; reflexivity].
      apply (process_query_unlimited e request w limit Hl Hlen). left. exact Hid. }
  destruct (decide (QueryRequest.tier request = "terrestrial")) as [Ht | Ht].
  2:{ right. left. split; [exact Hk |]. split; [| right; left; exact Ht].
      apply (process_query_unlimited e request w limit Hl Hlen). right. exact Ht. }
  assert (limit = 200) as ->.
  { rewrite Ht in Hl. vm_compute in Hl. congruence. }
  pose proof (process_query_free e request w uid Ht Hid Hlen) as Hpq.
  destruct (users (db w) !! uid) as [u |] eqn:Hu.
  2:{ left. eexists. exact Hpq. }
  destruct (Z.ltb_spec (date (User.last_reset u)) (date (now_check e))) as [Hd | Hd].
  { right. right. exists uid, u. repeat (split; [first [assumption | reflexivity] |]). exact Hpq. }
  destruct (Z.ltb_spec (User.message_count u) 50) as [Hc | Hc].
  - right. left. split; [exact Hk |]. split; [exact Hpq |].
    right. right. exists uid, u. repeat (split; [first [assumption | reflexivity] |]). exact Hc.
  - left. eexists. exact Hpq.
Qed.

(** C4. For a stored user whose last reset is on a day before the day the
    limiter reads, the free-tier check writes counter 0 and the new reset
    time to the user's row (other rows and the messages stay), and only then
    compares: it answers true whatever the stored counter was.  The query
    that triggers it is therefore served, and leaves the counter at 1. *)
Theorem verify_user_limits_new_day (e : Env) (user_id : Z) (w : world)
    (u : User.t) :
  users (db w) !! user_id = Some u ->
  date (User.last_reset u) < date (now_check e) ->
  (exists w',
     verify_user_limits e user_id "terrestrial" w = (Return true, w')
     /\ users (db w') !! user_id = Some (reset_row (now_reset e) u)
     /\ User.message_count (reset_row (now_reset e) u) = 0
     /\ User.last_reset (reset_row (now_reset e) u) = now_reset e
     /\ (forall k, k <> user_id -> users (db w') !! k = users (db w) !! k)
     /\ messages (db w') = messages (db w))
  /\ (forall request,
        QueryRequest.tier request = "terrestrial" ->
        QueryRequest.user_id request = Some user_id ->
        user_id <> 0 ->
        Text.len (QueryRequest.query request) <= 200 ->
        exists r w'',
          process_query e request w = (Return r, w'')
          /\ users (db w'') !! user_id
             = Some (increment_row (reset_row (now_reset e) u))
          /\ User.message_count (increment_row (reset_row (now_reset e) u)) = 1).
Proof.
  intros Hu Hd. split.
  - eexists. split; [apply (verify_user_limits_reset e user_id w u Hu Hd) |].
    simpl. split; [apply lookup_insert_eq |]. split; [reflexivity |].
    split; [reflexivity |]. split; [| reflexivity].
    intros k Hk. apply lookup_insert_ne. congruence.
  - intros request Ht Hid Hnz Hlen.
    assert (Htr : truthy (QueryRequest.user_id request) = Some user_id).
    { rewrite Hid. destruct user_id; [contradiction | reflexivity | reflexivity]. }
    rewrite (process_query_free e request w user_id Ht Htr Hlen), Hu.
    apply Z.ltb_lt in Hd. rewrite Hd.
    destruct (serve_known e request
                (World (Database (<[user_id := reset_row (now_reset e) u]> (users (db w)))
                                 (messages (db w)))
                       (log w ++ [Execute (ResetCount user_id (now_reset e))])))
      as (r & secs & Hs & _).
    { rewrite Ht. left. reflexivity. }
    exists r. eexists. split; [exact Hs |].
    unfold served_db. rewrite Htr, Ht. simpl.
    split; [| reflexivity].
    rewrite lookup_alter_eq, lookup_insert_eq. reflexivity.
Qed.

Lemma verify_user_limits_new_day_witness :
  let w := snd (register_user (noon 1) alice init_database) in
  let u := new_user (noon 1) alice in
  (exists w',
     verify_user_limits (noon 2) 1 "terrestrial" w = (Return true, w')
     /\ users (db w') !! 1 = Some (reset_row (now_reset (noon 2)) u)
     /\ User.message_count (reset_row (now_reset (noon 2)) u) = 0
     /\ User.last_reset (reset_row (now_reset (noon 2)) u) = now_reset (noon 2)
     /\ (forall k, k <> 1 -> users (db w') !! k = users (db w) !! k)
     /\ messages (db w') = messages (db w))
  /\ (forall request,
        QueryRequest.tier request = "terrestrial" ->
        QueryRequest.user_id request = Some 1 ->
        1 <> 0 ->
        Text.len (QueryRequest.query request) <= 200 ->
        exists r w'',
          process_query (noon 2) request w = (Return r, w'')
          /\ users (db w'') !! 1
             = Some (increment_row (reset_row (now_reset (noon 2)) u))
          /\ User.message_count
               (increment_row (reset_row (now_reset (noon 2)) u)) = 1).
Proof.
  intros w u.
  apply (verify_user_limits_new_day (noon 2) 1 w u).
  - vm_compute. reflexivity.
  - simpl. lia.
Defined.

(** A counter at the cap does not survive midnight: 50 queries on day 5, the
    51st refused that day, the next one served on day 6. *)
Example quota_then_new_day :
  let w := run (fifty_queries 5)
               (snd (register_user (noon 1) alice init_database)) in
  let request := QueryRequest.Make "one more" "terrestrial" (Some 1) in
  fst (process_query (noon 5) request w) = Raise quota_error
  /\ is_return (fst (process_query (noon 6) request w)) = true
  /\ User.message_count
       <$> users (db (snd (process_query (noon 6) request w))) !! 1 = Some 1.
Proof. vm_compute. repeat split. Qed.

(** ** The message log *)

Lemma process_query_messages (e : Env) (request : QueryRequest.t) (w : world) :
  match process_query e request w with
  | (Return r, w') =>
      messages (db w') =
        messages (db w) ++
        match truthy (QueryRequest.user_id request) with
        | Some user_id =>
            [new_message e request user_id (AIResponse.response r) (db w)]
        | None => []
        end
  | (Raise _, w') => messages (db w') = messages (db w)
  end.
Proof.
  destruct (process_query_outcome e request w)
    as [[ex Hr] | [(Hk & Hs & _) | (uid & u & Ht & Hid & Hu & Hd & Hs)]].
  - rewrite Hr. reflexivity.
  - rewrite Hs. destruct (serve_known e request w Hk) as (r & secs & -> & _).
    unfold served_db. simpl.
    destruct (truthy (QueryRequest.user_id request));
      [reflexivity | rewrite app_nil_r; reflexivity].
  - rewrite Hs.
    match goal with
    | |- context [serve e request ?w1] =>
        destruct (serve_known e request w1) as (r & secs & -> & _)
    end.
    { rewrite Ht. left. reflexivity. }
    unfold served_db. rewrite Hid. reflexivity.
Qed.

Lemma handle_messages (c : call) (w : world) :
  (forall e request, c <> Query e request) ->
  messages (db (snd (handle c w))) = messages (db w).
Proof.
  intros Hq. destruct c as [| e request | e user | user | e |]; simpl.
  - reflexivity.
  - exfalso. apply (Hq e request). reflexivity.
  - unfold register_user, bind, read_db.
    destruct (select_by_email _ _); reflexivity.
  - unfold login_user, bind, read_db.
    destruct (select_by_credentials _ _ _) as [[uid row] |]; reflexivity.
  - reflexivity.
  - reflexivity.
Qed.

Lemma handle_messages_prefix (c : call) (w : world) :
  messages (db w) `prefix_of` messages (db (snd (handle c w))).
Proof.
  destruct c as [| e request | e user | user | e |];
    try (rewrite handle_messages; [reflexivity | intros; discriminate]).
  simpl. pose proof (process_query_messages e request w) as Hm.
  destruct (process_query e request w) as [[r | ex] w']; simpl.
  - rewrite Hm. apply prefix_app_r. reflexivity.
  - rewrite Hm. reflexivity.
Qed.

(** C9, as the code has it.  A served query appends exactly one message row
    when its user id is truthy, that is supplied and not 0, and none when the
    id is absent or 0; a rejected query and every other endpoint leave the
    messages as they were; so along any sequence of requests the log only
    grows at its end: no row is changed or removed. *)
Theorem messages_append_only :
  (forall e request w,
     match process_query e request w with
     | (Return r, w') =>
         messages (db w') =
           messages (db w) ++
           match truthy (QueryRequest.user_id request) with
           | Some user_id =>
               [new_message e request user_id (AIResponse.response r) (db w)]
           | None => []
           end
     | (Raise _, w') => messages (db w') = messages (db w)
     end)
  /\ (forall c w,
        match c with
        | Query _ _ => True
        | _ => messages (db (snd (handle c w))) = messages (db w)
        end)
  /\ (forall cs w, messages (db w) `prefix_of` messages (db (run cs w))).
Proof.
  split; [exact process_query_messages |].
  split.
  { intros c w. destruct c; try exact I;
      (apply handle_messages; intros; discriminate). }
  induction cs as [| c cs IH]; intros w; simpl.
  - reflexivity.
  - etransitivity; [apply (handle_messages_prefix c w) | apply IH].
Qed.

(** C9, as stated, fails: a query that supplies user id 0 is served and no
    message row is inserted. *)
Lemma user_id_zero_no_message :
  exists r w',
    process_query (noon 1) (QueryRequest.Make "hello" "aerial" (Some 0))
      init_database = (Return r, w')
    /\ messages (db w') = [].
Proof. do 2 eexists. split; [vm_compute; reflexivity | reflexivity]. Qed.

(** ** The daily quota *)

Lemma truthy_Some (o : option Z) (user_id : Z) :
  truthy o = Some user_id <-> o = Some user_id /\ user_id <> 0.
Proof.
  destruct o as [[| p | p] |]; simpl; split;
    try (intros [H1 H2]); try intros H; try discriminate;
    try (inversion H; subst; split; [reflexivity | discriminate]);
    try (inversion H1; subst; try contradiction; reflexivity).
Qed.

(** The users table changes only when a free-tier query of a stored user is
    served: that user's row, reset first on a new day, gets one more. *)
Lemma process_query_users (e : Env) (request : QueryRequest.t) (w : world) :
  match process_query e request w,
        truthy (QueryRequest.user_id request),
        String.eqb (QueryRequest.tier request) "terrestrial" with
  | (Return _, w'), Some user_id, true =>
      exists u,
        users (db w) !! user_id = Some u
        /\ User.message_count (checked_row e u) < 50
        /\ users (db w') =
             <[user_id := increment_row (checked_row e u)]> (users (db w))
  | (_, w'), _, _ => users (db w') = users (db w)
  end.
Proof.
  destruct (process_query_outcome e request w)
    as [[ex Hr] | [(Hk & Hs & Hc) | (uid & u & Ht & Hid & Hu & Hd & Hs)]].
  - rewrite Hr. repeat case_match; reflexivity.
  - rewrite Hs. destruct (serve_known e request w Hk) as (r & secs & -> & _).
    unfold served_db. simpl.
    destruct (truthy (QueryRequest.user_id request)) as [uid |] eqn:Hid;
      [| reflexivity].
    destruct (String.eqb_spec (QueryRequest.tier request) "terrestrial") as [Ht | Ht];
      [| reflexivity].
    destruct Hc as [Hc | [Hc | (uid' & u & Hid' & Hu & Hd & Hlt)]];
      [discriminate | contradiction |].
    inversion Hid'; subst uid'. exists u.
    assert (Hch : checked_row e u = u).
    { unfold checked_row. apply Z.ltb_ge in Hd. rewrite Hd. reflexivity. }
    rewrite Hch. split; [exact Hu |]. split; [exact Hlt |]. simpl.
    apply map_eq. intros k. rewrite lookup_alter, lookup_insert.
    case_decide; subst; [rewrite Hu |]; reflexivity.
  - rewrite Hs.
    match goal with
    | |- context [serve e request ?w1] =>
        destruct (serve_known e request w1) as (r & secs & -> & _)
    end.
    { rewrite Ht. left. reflexivity. }
    unfold served_db. rewrite Hid, Ht. simpl. exists u.
    assert (Hch : checked_row e u = reset_row (now_reset e) u).
    { unfold checked_row. apply Z.ltb_lt in Hd. rewrite Hd. reflexivity. }
    rewrite Hch. split; [exact Hu |]. split; [simpl; lia |].
    apply map_eq. intros k. rewrite lookup_alter, !lookup_insert.
    repeat case_decide; subst; try congruence; reflexivity.
Qed.

Lemma next_rowid_pos (ids : list Z) :
  (forall i, i ∈ ids -> 0 < i) -> 0 < next_rowid ids.
Proof.
  destruct ids as [| i rest]; intros Hpos; simpl; [lia |].
  pose proof (Hpos i (list_elem_of_here _ _)).
  pose proof (foldr_max_ge rest i i (or_introl eq_refl)). lia.
Qed.

(** Every request keeps ids positive and counters non-negative. *)
Lemma handle_users_wf (c : call) (w : world) :
  users_wf (users (db w)) -> users_wf (users (db (snd (handle c w)))).
Proof.
  intros Hwf. destruct c as [| e request | e user | user | e |]; simpl;
    try exact Hwf.
  - pose proof (process_query_users e request w) as Hu.
    destruct (process_query e request w) as [[r | ex] w']; simpl.
    + destruct (truthy (QueryRequest.user_id request)) as [uid |];
        [| rewrite Hu; exact Hwf].
      destruct (String.eqb (QueryRequest.tier request) "terrestrial");
        [| rewrite Hu; exact Hwf].
      destruct Hu as (u & Hlk & _ & ->).
      intros k u' Hk. rewrite lookup_insert in Hk. case_decide.
      * inversion Hk; subst. destruct (Hwf _ _ Hlk) as [Hpos Hcnt].
        split; [exact Hpos |]. unfold checked_row.
        destruct (_ <? _); simpl; lia.
      * exact (Hwf _ _ Hk).
    + repeat case_match; rewrite Hu; exact Hwf.
  - unfold register_user, bind, read_db.
    destruct (select_by_email _ _); simpl; [exact Hwf |].
    intros k u' Hk. rewrite lookup_insert in Hk. case_decide.
    + inversion Hk; subst. split; [| simpl; lia].
      apply next_rowid_pos. intros i Hi.
      apply list_elem_of_fmap in Hi as ([k u] & -> & Hin).
      apply elem_of_map_to_list in Hin. exact (proj1 (Hwf _ _ Hin)).
    + exact (Hwf _ _ Hk).
  - unfold login_user, bind, read_db.
    destruct (select_by_credentials _ _ _) as [[uid row] |]; exact Hwf.
Qed.

Lemma run_users_wf (cs : list call) (w : world) :
  users_wf (users (db w)) -> users_wf (users (db (run cs w))).
Proof.
  revert w. induction cs as [| c cs IH]; intros w Hwf; simpl; [exact Hwf |].
  apply IH. apply handle_users_wf. exact Hwf.
Qed.

Lemma reachable_users_wf (w : world) :
  reachable w -> users_wf (users (db w)).
Proof.
  intros [cs ->]. apply run_users_wf. intros k u Hk.
  simpl in Hk. rewrite lookup_empty in Hk. discriminate.
Qed.

Section Quota.

(** The user whose quota is followed, and the day. *)
Variables (uid d : Z).
Hypothesis uid_pos : 0 < uid.

(** One request on day [d] keeps the quota invariant, and a served free-tier
    query of the user moves it one further. *)
Lemma handle_quota_inv (n : nat) (c : call) (w : world) :
  on_day d c ->
  quota_inv uid d n w ->
  quota_inv uid d
    (n + (if free_query_of uid c && fst (handle c w) then 1 else 0))
    (snd (handle c w)).
Proof.
  intros Hday (u & Hu & Hn & Hlr).
  assert (Hsame : forall w', users (db w') = users (db w) ->
            quota_inv uid d (n + 0) w').
  { intros w' Heq. exists u. rewrite Heq, Nat.add_0_r. auto. }
  destruct c as [| e request | e user | user | e |]; simpl;
    try (apply Hsame; reflexivity).
  - (* Query *)
    destruct Hday as [Hd1 Hd2].
    pose proof (process_query_users e request w) as Hpq.
    destruct (process_query e request w) as [[r | ex] w']; simpl.
    2:{ rewrite andb_false_r. apply Hsame. repeat case_match; exact Hpq. }
    rewrite andb_true_r.
    destruct (truthy (QueryRequest.user_id request)) as [id |] eqn:Hid.
    2:{ assert (bool_decide (QueryRequest.user_id request = Some uid) = false)
          as ->.
        { apply bool_decide_eq_false. intros Heq. rewrite Heq in Hid.
          destruct uid; simpl in Hid; [lia | discriminate | discriminate]. }
        rewrite andb_false_r. apply Hsame. exact Hpq. }
    apply truthy_Some in Hid as [Hid Hnz].
    destruct (String.eqb (QueryRequest.tier request) "terrestrial"); simpl.
    2:{ apply Hsame. exact Hpq. }
    destruct Hpq as (u0 & Hu0 & Hlt & Hus).
    destruct (decide (id = uid)) as [-> | Hne].
    + rewrite bool_decide_eq_true_2 by exact Hid.
      rewrite Hu in Hu0. inversion Hu0; subst u0.
      exists (increment_row (checked_row e u)).
      rewrite Hus, lookup_insert_eq. split; [reflexivity |].
      unfold checked_row in *.
      destruct (Z.ltb_spec (date (User.last_reset u)) (date (now_check e)))
        as [Hnew | Hold]; simpl in *.
      * assert (n = 0%nat) as -> by (destruct n; [reflexivity | lia]).
        split; [simpl; lia | intros _; lia].
      * split; [lia | intros _; lia].
    + rewrite bool_decide_eq_false_2 by congruence.
      exists u. rewrite Hus, lookup_insert_ne by exact Hne.
      rewrite Nat.add_0_r. auto.
  - (* Register *)
    unfold register_user, bind, read_db.
    destruct (select_by_email _ _); simpl; [apply Hsame; reflexivity |].
    exists u. rewrite Nat.add_0_r. split; [| auto].
    unfold execute, ret. simpl.
    rewrite lookup_insert_ne; [exact Hu |].
    intros Heq. pose proof (new_user_id_fresh (db w)) as Hf.
    rewrite Heq in Hf. congruence.
  - (* Login *)
    unfold login_user, bind, read_db.
    destruct (select_by_credentials _ _ _) as [[k row] |];
      apply Hsame; reflexivity.
Qed.

Lemma run_quota_inv (cs : list call) (n : nat) (w : world) :
  Forall (on_day d) cs ->
  quota_inv uid d n w ->
  quota_inv uid d (n + served_count uid cs w) (run cs w).
Proof.
  intros Hdays. revert n w.
  induction Hdays as [| c cs Hc Hcs IH]; intros n w Hinv; simpl.
  - rewrite Nat.add_0_r. exact Hinv.
  - rewrite Nat.add_assoc. apply IH.
    apply handle_quota_inv; assumption.
Qed.

End Quota.

(** C1. Take a stored user of a reachable world and any requests read on
    one day [d], of which at least 50 are served free-tier queries of that
    user.  The user's next free-tier query on day [d] is rejected and leaves
    the world as it was, so nothing is slept, generated or written; the error
    is the quota error 429 whenever the query passes the length test that
    comes first. *)
Theorem daily_quota (w0 : world) (uid d : Z) (cs : list call)
    (e : Env) (request : QueryRequest.t) :
  reachable w0 ->
  is_Some (users (db w0) !! uid) ->
  Forall (on_day d) cs ->
  (50 <= served_count uid cs w0)%nat ->
  on_day d (Query e request) ->
  QueryRequest.tier request = "terrestrial" ->
  QueryRequest.user_id request = Some uid ->
  (exists ex, process_query e request (run cs w0) = (Raise ex, run cs w0))
  /\ (Text.len (QueryRequest.query request) <= 200 ->
      process_query e request (run cs w0) = (Raise quota_error, run cs w0)).
Proof.
  intros Hreach [u0 Hu0] Hdays Hcount [Hd1 Hd2] Ht Hid.
  destruct (reachable_users_wf w0 Hreach uid u0 Hu0) as [Hpos Hcnt0].
  assert (Hinv0 : quota_inv uid d 0 w0).
  { exists u0. split; [exact Hu0 |]. split; [simpl; lia | lia]. }
  pose proof (run_quota_inv uid d Hpos cs 0 w0 Hdays Hinv0) as (u & Hu & Hn & Hlr).
  simpl in Hn, Hlr.
  assert (Htr : truthy (QueryRequest.user_id request) = Some uid).
  { apply truthy_Some. split; [exact Hid | lia]. }
  assert (Hquota : Text.len (QueryRequest.query request) <= 200 ->
            process_query e request (run cs w0) = (Raise quota_error, run cs w0)).
  { intros Hlen.
    rewrite (process_query_free e request (run cs w0) uid Ht Htr Hlen), Hu.
    destruct (Z.ltb_spec (date (User.last_reset u)) (date (now_check e))); [lia |].
    destruct (Z.ltb_spec (User.message_count u) 50); [lia | reflexivity]. }
  split; [| exact Hquota].
  destruct (Z.le_gt_cases (Text.len (QueryRequest.query request)) 200) as [Hlen | Hlen].
  - eexists. apply Hquota. exact Hlen.
  - eexists. apply (length_guard_rejects e request (run cs w0) 200).
    + rewrite Ht. reflexivity.
    + lia.
Qed.

Lemma fifty_queries_on_day (d : Z) : Forall (on_day d) (fifty_queries d).
Proof.
  apply Forall_forall. intros c Hc. apply list_elem_of_In, repeat_spec in Hc.
  subst c. simpl. split; reflexivity.
Qed.

Lemma daily_quota_witness :
  let w0 := snd (register_user (noon 1) alice init_database) in
  let request := QueryRequest.Make "one more" "terrestrial" (Some 1) in
  (exists ex, process_query (noon 5) request (run (fifty_queries 5) w0)
              = (Raise ex, run (fifty_queries 5) w0))
  /\ (Text.len (QueryRequest.query request) <= 200 ->
      process_query (noon 5) request (run (fifty_queries 5) w0)
      = (Raise quota_error, run (fifty_queries 5) w0)).
Proof.
  intros w0 request.
  apply (daily_quota w0 1 5 (fifty_queries 5) (noon 5) request).
  - exists [Register (noon 1) alice]. reflexivity.
  - eexists. vm_compute. reflexivity.
  - apply fifty_queries_on_day.
  - vm_compute. apply le_n.
  - simpl. split; reflexivity.
  - reflexivity.
  - reflexivity.
Defined.

(** * Further properties of the server *)

(** ** How a request changes the tables *)

(** The users table after any request: as before, or one row counted up
    (after its reset on a new day), or one new row under a new id. *)
Lemma handle_users_cases (c : call) (w : world) :
  users (db (snd (handle c w))) = users (db w)
  \/ (exists e id u,
        users (db w) !! id = Some u
        /\ User.message_count (checked_row e u) < 50
        /\ users (db (snd (handle c w)))
           = <[id := increment_row (checked_row e u)]> (users (db w)))
  \/ (exists e user,
        ~ email_taken (UserRegistration.email user) (users (db w))
        /\ users (db (snd (handle c w)))
           = <[new_user_id (db w) := new_user e user]> (users (db w))).
Proof.
  destruct c as [| e request | e user | user | e |]; simpl;
    try (left; reflexivity).
  - pose proof (process_query_users e request w) as Hu.
    destruct (process_query e request w) as [[r | ex] w']; simpl.
    + destruct (truthy (QueryRequest.user_id request)) as [uid |];
        [| left; exact Hu].
      destruct (String.eqb (QueryRequest.tier request) "terrestrial");
        [| left; exact Hu].
      destruct Hu as (u & Hlk & Hlt & Hus).
      right. left. exists e, uid, u. auto.
    + left. repeat case_match; exact Hu.
  - destruct (select_by_email (UserRegistration.email user) (users (db w)))
      as [r |] eqn:E.
    + left. unfold register_user, bind, read_db. rewrite E. reflexivity.
    + right. right. exists e, user. split.
      * intros Ht. apply select_by_email_taken in Ht as [r Hr]. congruence.
      * unfold register_user, bind, read_db. rewrite E. reflexivity.
  - left. unfold login_user, bind, read_db.
    destruct (select_by_credentials _ _ _) as [[uid row] |]; reflexivity.
Qed.

(** A property of the users table that every request keeps holds in every
    reachable world. *)
Lemma reachable_users_ind (P : gmap Z User.t -> Prop) :
  P ∅ ->
  (forall c w, P (users (db w)) -> P (users (db (snd (handle c w))))) ->
  forall w, reachable w -> P (users (db w)).
Proof.
  intros H0 Hstep w [cs ->].
  assert (forall w, P (users (db w)) -> P (users (db (run cs w)))) as Hrun.
  { induction cs as [| c cs IH]; intros w Hw; simpl; [exact Hw |].
    apply IH, Hstep, Hw. }
  apply Hrun. exact H0.
Qed.

(** ** Invariants of reachable worlds *)

Lemma checked_row_identity (e : Env) (u : User.t) :
  same_identity u (increment_row (checked_row e u)).
Proof.
  unfold checked_row. destruct (_ <? _); repeat split.
Qed.

Lemma emails_unique_inv (w : world) :
  reachable w -> emails_unique (users (db w)).
Proof.
  apply (reachable_users_ind emails_unique).
  - intros k1 k2 u1 u2 H1. rewrite lookup_empty in H1. discriminate.
  - intros c w0 Hinv.
    destruct (handle_users_cases c w0)
      as [-> | [(e & id & u & Hu & _ & ->) | (e & user & Hfresh & ->)]];
      [exact Hinv | |].
    + assert (Hrow : forall k v,
                <[id := increment_row (checked_row e u)]> (users (db w0)) !! k
                = Some v ->
                exists v0, users (db w0) !! k = Some v0
                           /\ User.email v = User.email v0).
      { intros k v Hk. rewrite lookup_insert in Hk. case_decide.
        - inversion Hk; subst. exists u. split; [exact Hu |].
          apply (checked_row_identity e u).
        - exists v. auto. }
      intros k1 k2 u1 u2 H1 H2 He.
      apply Hrow in H1 as (v1 & H1 & E1). apply Hrow in H2 as (v2 & H2 & E2).
      apply (Hinv k1 k2 v1 v2 H1 H2). congruence.
    + intros k1 k2 u1 u2 H1 H2 He.
      destruct (decide (new_user_id (db w0) = k1)) as [E1 | N1];
        destruct (decide (new_user_id (db w0) = k2)) as [E2 | N2].
      * congruence.
      * rewrite <- E1, lookup_insert_eq in H1.
        rewrite lookup_insert_ne in H2 by exact N2.
        inversion H1; subst u1. exfalso. apply Hfresh. exists k2, u2.
        split; [exact H2 | symmetry; exact He].
      * rewrite <- E2, lookup_insert_eq in H2.
        rewrite lookup_insert_ne in H1 by exact N1.
        inversion H2; subst u2. exfalso. apply Hfresh. exists k1, u1.
        split; [exact H1 | exact He].
      * rewrite lookup_insert_ne in H1 by exact N1.
        rewrite lookup_insert_ne in H2 by exact N2.
        exact (Hinv k1 k2 u1 u2 H1 H2 He).
Qed.

Lemma users_capped_inv (w : world) :
  reachable w -> users_capped (users (db w)).
Proof.
  apply (reachable_users_ind users_capped).
  - intros k u H. rewrite lookup_empty in H. discriminate.
  - intros c w0 Hinv.
    destruct (handle_users_cases c w0)
      as [-> | [(e & id & u & Hu & Hlt & ->) | (e & user & Hfresh & ->)]];
      [exact Hinv | |]; intros k v Hk; rewrite lookup_insert in Hk;
      case_decide; try exact (Hinv k v Hk); inversion Hk; subst.
    + destruct (Hinv _ _ Hu) as [Hc Ht]. split.
      * unfold checked_row in *. destruct (_ <? _); simpl in *; lia.
      * rewrite <- Ht. apply (checked_row_identity e u).
    + split; [simpl; lia | reflexivity].
Qed.

Lemma foldr_max_elem (l : list Z) (a : Z) : foldr Z.max a l ∈ a :: l.
Proof.
  induction l as [| y l IH]; simpl; [apply list_elem_of_here |].
  destruct (Z.max_spec y (foldr Z.max a l)) as [[_ ->] | [_ ->]].
  - apply elem_of_cons in IH as [-> | IH].
    + apply list_elem_of_here.
    + do 2 apply list_elem_of_further. exact IH.
  - apply list_elem_of_further, list_elem_of_here.
Qed.

(** With ids 1..n in use the next rowid is n + 1. *)
Lemma next_rowid_dense (ids : list Z) (n : Z) :
  0 <= n ->
  (forall i, i ∈ ids <-> 1 <= i <= n) ->
  next_rowid ids = n + 1.
Proof.
  intros Hn Hids. destruct ids as [| i rest].
  - simpl. destruct (decide (n = 0)) as [-> | Hne]; [reflexivity |].
    assert (n ∈ ([] : list Z)) as Hin by (apply Hids; lia). inversion Hin.
  - pose proof (foldr_max_elem rest i) as Hmax. apply Hids in Hmax.
    assert (n ∈ i :: rest) as Hin by (apply Hids; lia).
    apply next_rowid_gt in Hin. unfold next_rowid in *. lia.
Qed.

Lemma new_user_id_dense (d : database) :
  ids_dense (users d) -> new_user_id d = Z.of_nat (size (users d)) + 1.
Proof.
  intros Hd. unfold new_user_id. apply next_rowid_dense; [lia |].
  intros i. rewrite <- (Hd i). split.
  - intros Hin. apply list_elem_of_fmap in Hin as ([k u] & -> & Hin).
    apply elem_of_map_to_list in Hin. eauto.
  - intros [u Hu]. apply list_elem_of_fmap. exists (i, u).
    split; [reflexivity | apply elem_of_map_to_list; exact Hu].
Qed.

Lemma reachable_ids_dense (w : world) :
  reachable w -> ids_dense (users (db w)).
Proof.
  apply (reachable_users_ind ids_dense).
  - intros k. rewrite lookup_empty, map_size_empty. split.
    + intros [x Hx]. discriminate.
    + simpl. lia.
  - intros c w0 Hinv.
    destruct (handle_users_cases c w0)
      as [-> | [(e & id & u & Hu & _ & ->) | (e & user & Hfresh & ->)]];
      [exact Hinv | |]; intros k.
    + rewrite map_size_insert_Some by eauto.
      rewrite <- (Hinv k), lookup_insert. case_decide; subst; [| reflexivity].
      split; eauto.
    + pose proof (new_user_id_fresh (db w0)) as Hnew.
      rewrite map_size_insert_None by exact Hnew.
      rewrite (new_user_id_dense _ Hinv) in *.
      rewrite lookup_insert. case_decide; subst.
      * split; [lia | eauto].
      * rewrite (Hinv k). lia.
Qed.

(** X2. In a reachable world the user ids in use are exactly 1..n for n
    stored rows, and registering a fresh email returns n + 1 and stores one
    more row. *)
Theorem register_user_dense (e : Env) (user : UserRegistration.t) (w : world) :
  reachable w ->
  ~ email_taken (UserRegistration.email user) (users (db w)) ->
  fst (register_user e user w) = Return (Z.of_nat (size (users (db w))) + 1)
  /\ size (users (db (snd (register_user e user w)))) = S (size (users (db w)))
  /\ forall k, is_Some (users (db w) !! k) <-> 1 <= k <= Z.of_nat (size (users (db w))).
Proof.
  intros Hr Hf. pose proof (reachable_ids_dense w Hr) as Hd.
  rewrite (register_user_fresh e user w Hf). simpl.
  split; [rewrite (new_user_id_dense _ Hd); reflexivity |].
  split; [apply map_size_insert_None, new_user_id_fresh | exact Hd].
Qed.

Lemma run_app (cs1 cs2 : list call) (w : world) :
  run (cs1 ++ cs2) w = run cs2 (run cs1 w).
Proof.
  revert w. induction cs1 as [| c cs1 IH]; intros w; simpl; [reflexivity |].
  apply IH.
Qed.

Lemma reachable_step (c : call) (w : world) :
  reachable w -> reachable (snd (handle c w)).
Proof.
  intros [cs ->]. exists (cs ++ [c]). rewrite run_app. reflexivity.
Qed.

Lemma reachable_run (cs : list call) (w : world) :
  reachable w -> reachable (run cs w).
Proof.
  intros [cs0 ->]. exists (cs0 ++ cs). rewrite run_app. reflexivity.
Qed.

(** ** Login *)

Lemma select_by_credentials_found (us : gmap Z User.t) (id : Z) (u : User.t) :
  emails_unique us ->
  us !! id = Some u ->
  select_by_credentials (User.email u) (User.password_hash u) us = Some (id, u).
Proof.
  intros Huniq Hu. unfold select_by_credentials.
  destruct (list_find _ _) as [[i [k u']] |] eqn:E.
  - apply list_find_Some in E as (Hl & [He _] & _). simpl in He.
    apply list_elem_of_lookup_2, elem_of_map_to_list in Hl.
    assert (k = id) as -> by exact (Huniq k id u' u Hl Hu He).
    simpl. congruence.
  - exfalso. apply list_find_None in E. rewrite Forall_forall in E.
    apply (E (id, u)); [| split; reflexivity].
    apply elem_of_map_to_list. exact Hu.
Qed.

Lemma login_user_found (user : UserLogin.t) (w : world) (id : Z) (u : User.t) :
  reachable w ->
  users (db w) !! id = Some u ->
  User.email u = UserLogin.email user ->
  User.password_hash u = hash_password (UserLogin.password user) ->
  login_user user w
  = (Return (id, User.tier u, User.message_count u), w).
Proof.
  intros Hr Hu He Hp. unfold login_user, bind, read_db.
  rewrite <- He, <- Hp.
  rewrite (select_by_credentials_found _ id u (emails_unique_inv w Hr) Hu).
  reflexivity.
Qed.

(** X4. After a successful registration in a reachable world, logging in
    with the same email and password returns the id the registration
    returned, the tier terrestrial and a message count of 0, and changes
    nothing. *)
Theorem register_login_roundtrip (e : Env) (user : UserRegistration.t)
    (w w' : world) (id : Z) :
  reachable w ->
  register_user e user w = (Return id, w') ->
  login_user (UserLogin.Make (UserRegistration.email user)
                             (UserRegistration.password user)) w'
  = (Return (id, "terrestrial", 0), w').
Proof.
  intros Hr Hreg.
  assert (Hr' : reachable w').
  { pose proof (reachable_step (Register e user) w Hr) as H.
    simpl in H. rewrite Hreg in H. exact H. }
  apply register_user_Return in Hreg as [_ Hus].
  apply (login_user_found _ w' id (new_user e user) Hr');
    [rewrite Hus; apply lookup_insert_eq | reflexivity | reflexivity].
Qed.

(** ** Failures and errors *)



(** ** Served queries *)

(** X12. A query without user id (or with id 0) that passes the tier and
    length tests is served for every tier and never touches the database: the
    only effect is the sleep. *)
Theorem process_query_anonymous (e : Env) (request : QueryRequest.t) (w : world) :
  well_formed request ->
  truthy (QueryRequest.user_id request) = None ->
  exists r secs,
    process_query e request w
    = (Return r, World (db w) (log w ++ [Sleep secs]))
    /\ spec_response (QueryRequest.tier request) (QueryRequest.query request)
       = Some (AIResponse.response r).
Proof.
  intros (limit & Hin & Hlen) Hid. apply tier_limits_lookup in Hin.
  rewrite (process_query_unlimited e request w limit Hin Hlen (or_introl Hid)).
  destruct (serve_known e request w (max_lengths_known _ _ Hin))
    as (r & secs & Hs & Hspec).
  exists r, secs. split; [| exact Hspec].
  rewrite Hs. unfold served_db, served_writes. rewrite Hid. reflexivity.
Qed.



(** X7. A free-tier query within 200 characters of a stored user whose
    counter, after the reset of a new day, is below 50 is served: the
    user's row gets that counter plus one, every other row stays, and one
    message row is appended. *)
Theorem process_query_below_cap (e : Env) (request : QueryRequest.t)
    (w : world) (id : Z) (u : User.t) :
  QueryRequest.tier request = "terrestrial" ->
  truthy (QueryRequest.user_id request) = Some id ->
  Text.len (QueryRequest.query request) <= 200 ->
  users (db w) !! id = Some u ->
  User.message_count (checked_row e u) < 50 ->
  exists r w',
    process_query e request w = (Return r, w')
    /\ users (db w') = <[id := increment_row (checked_row e u)]> (users (db w))
    /\ User.message_count (increment_row (checked_row e u))
       = User.message_count (checked_row e u) + 1
    /\ messages (db w')
       = messages (db w)
         ++ [new_message e request id (AIResponse.response r) (db w)].
Proof.
  intros Ht Hid Hlen Hu Hc.
  pose proof (process_query_users e request w) as Hus.
  pose proof (process_query_messages e request w) as Hms.
  rewrite Hid, Ht in Hus. simpl in Hus. rewrite Hid in Hms.
  destruct (process_query e request w) as [[r | ex] w'] eqn:Hpq.
  - exists r, w'. split; [reflexivity |].
    destruct Hus as (u0 & Hu0 & _ & Hus). rewrite Hu in Hu0.
    inversion Hu0; subst u0. split; [exact Hus |]. split; [reflexivity | exact Hms].
  - exfalso.
    rewrite (process_query_free e request w id Ht Hid Hlen), Hu in Hpq.
    unfold checked_row in Hc.
    destruct (date (User.last_reset u) <? date (now_check e)).
    + match type of Hpq with
      | context [serve e request ?w1] =>
          destruct (serve_known e request w1) as (r & secs & Hs & _)
      end; [rewrite Ht; left; reflexivity |].
      rewrite Hs in Hpq. discriminate.
    + apply Z.ltb_lt in Hc. rewrite Hc in Hpq.
      destruct (serve_known e request w) as (r & secs & Hs & _);
        [rewrite Ht; left; reflexivity |].
      rewrite Hs in Hpq. discriminate.
Qed.

(** ** Rows persist *)

Lemma same_identity_trans (u1 u2 u3 : User.t) :
  same_identity u1 u2 -> same_identity u2 u3 -> same_identity u1 u3.
Proof.
  unfold same_identity. intros (A1 & A2 & A3 & A4) (B1 & B2 & B3 & B4).
  repeat split; congruence.
Qed.

Lemma handle_row_persists (c : call) (w : world) (k : Z) (u : User.t) :
  users (db w) !! k = Some u ->
  exists u', users (db (snd (handle c w))) !! k = Some u' /\ same_identity u u'.
Proof.
  intros Hu.
  destruct (handle_users_cases c w)
    as [-> | [(e & id & u0 & Hu0 & _ & ->) | (e & user & Hfresh & ->)]].
  - exists u. split; [exact Hu | repeat split].
  - rewrite lookup_insert. case_decide; subst.
    + rewrite Hu in Hu0. inversion Hu0; subst u0.
      eexists. split; [reflexivity | apply checked_row_identity].
    + exists u. split; [exact Hu | repeat split].
  - rewrite lookup_insert_ne.
    + exists u. split; [exact Hu | repeat split].
    + intros Heq. pose proof (new_user_id_fresh (db w)) as Hf.
      rewrite Heq in Hf. congruence.
Qed.

(** X13. Along any sequence of requests a stored user row is never deleted
    and keeps its email, password hash, tier and creation time; only the
    counter and the reset time can change. *)
Theorem run_row_persists (cs : list call) (w : world) (k : Z) (u : User.t) :
  users (db w) !! k = Some u ->
  exists u', users (db (run cs w)) !! k = Some u' /\ same_identity u u'.
Proof.
  revert w u. induction cs as [| c cs IH]; intros w u Hu; simpl.
  - exists u. split; [exact Hu | repeat split].
  - destruct (handle_row_persists c w k u Hu) as (u1 & Hu1 & Hs1).
    destruct (IH _ _ Hu1) as (u2 & Hu2 & Hs2).
    exists u2. split; [exact Hu2 | exact (same_identity_trans _ _ _ Hs1 Hs2)].
Qed.

(** ** Message ids *)

Lemma reachable_world_ind (P : world -> Prop) :
  P init_database ->
  (forall c w, P w -> P (snd (handle c w))) ->
  forall w, reachable w -> P w.
Proof.
  intros H0 Hstep w [cs ->].
  assert (forall w, P w -> P (run cs w)) as Hrun.
  { induction cs as [| c cs IH]; intros w Hw; simpl; [exact Hw |].
    apply IH, Hstep, Hw. }
  apply Hrun. exact H0.
Qed.

Lemma next_rowid_seqZ (n : nat) : next_rowid (seqZ 1 (Z.of_nat n)) = Z.of_nat n + 1.
Proof.
  apply next_rowid_dense; [lia |]. intros i. rewrite elem_of_seqZ. lia.
Qed.

Lemma message_ids_dense_snoc (ms : list Message.t) (m : Message.t) :
  message_ids_dense ms ->
  Message.id m = next_rowid (Message.id <$> ms) ->
  message_ids_dense (ms ++ [m]).
Proof.
  unfold message_ids_dense. intros Hd Hid.
  rewrite fmap_app, length_app, Hd. simpl.
  rewrite Hid, Hd, next_rowid_seqZ.
  replace (Z.of_nat (length ms + 1)) with (Z.of_nat (length ms) + 1) by lia.
  rewrite seqZ_app by lia. f_equal.
  replace (1 + Z.of_nat (length ms)) with (Z.of_nat (length ms) + 1) by lia.
  reflexivity.
Qed.

(** X14. In a reachable world the message ids are 1, 2, ..., n in the order
    of insertion: the primary key is never reused. *)
Theorem message_ids_dense_inv (w : world) :
  reachable w -> message_ids_dense (messages (db w)).
Proof.
  apply (reachable_world_ind (fun w => message_ids_dense (messages (db w)))).
  - reflexivity.
  - intros c w0 Hinv.
    destruct c as [| e request | e user | user | e |];
      try (rewrite handle_messages; [exact Hinv | intros; discriminate]).
    simpl. pose proof (process_query_messages e request w0) as Hm.
    destruct (process_query e request w0) as [[r | ex] w']; simpl;
      rewrite Hm; [| exact Hinv].
    destruct (truthy (QueryRequest.user_id request)) as [id |];
      [| rewrite app_nil_r; exact Hinv].
    apply message_ids_dense_snoc; [exact Hinv | reflexivity].
Qed.

(** ** Statistics *)

(** Grouping a table whose rows are all at the free tier. *)
Lemma tier_counts_free (us : gmap Z User.t) :
  (forall k u, us !! k = Some u -> User.tier u = "terrestrial") ->
  map_fold (fun _ u acc => <[User.tier u := get_or acc (User.tier u) 0 + 1]> acc)
           (∅ : gmap string Z) us
  = match size us with
    | O => ∅
    | S _ => {[ "terrestrial" := Z.of_nat (size us) ]}
    end.
Proof.
  apply (map_fold_weak_ind
           (fun (acc : gmap string Z) (m : gmap Z User.t) =>
              (forall k u, m !! k = Some u -> User.tier u = "terrestrial") ->
              acc = match size m with
                    | O => ∅
                    | S _ => {[ "terrestrial" := Z.of_nat (size m) ]}
                    end)).
  - intros _. rewrite map_size_empty. reflexivity.
  - intros i x m r Hi IH Hall.
    assert (Hx : User.tier x = "terrestrial").
    { apply (Hall i). apply lookup_insert_eq. }
    assert (Hm : forall k u, m !! k = Some u -> User.tier u = "terrestrial").
    { intros k u Hk. apply (Hall k). rewrite lookup_insert_ne; [exact Hk |].
      intros ->. congruence. }
    rewrite (IH Hm), Hx. rewrite map_size_insert_None by exact Hi.
    unfold get_or. destruct (size m) as [| n].
    + rewrite lookup_empty. reflexivity.
    + rewrite lookup_singleton_eq, insert_singleton_eq. simpl default.
      f_equal. lia.
Qed.

(** X15. In a reachable world [get_stats] reports every user under the
    tier terrestrial (no endpoint changes a tier), an empty dictionary when
    there is no user, and the number of message rows; it changes nothing. *)
Theorem get_stats_reachable (w : world) :
  reachable w ->
  get_stats w
  = (Return (match size (users (db w)) with
             | O => ∅
             | S _ => {[ "terrestrial" := Z.of_nat (size (users (db w))) ]}
             end,
             Z.of_nat (length (messages (db w)))),
     w).
Proof.
  intros Hr. unfold get_stats, bind, read_db, ret. simpl.
  rewrite tier_counts_free; [reflexivity |].
  intros k u Hk. exact (proj2 (users_capped_inv w Hr k u Hk)).
Qed.

(** ** At most fifty a day *)

Section DayBound.

Variables (uid d : Z).
Hypothesis uid_nz : uid <> 0.

(** Without a row for [uid] no free-tier query of [uid] is served. *)
Lemma no_row_no_service (c : call) (w : world) :
  users (db w) !! uid = None ->
  free_query_of uid c && fst (handle c w) = false.
Proof.
  intros Hu. destruct c as [| e request | e user | user | e |]; try reflexivity.
  simpl.
  destruct (String.eqb_spec (QueryRequest.tier request) "terrestrial") as [Ht | Ht];
    [| reflexivity].
  destruct (decide (QueryRequest.user_id request = Some uid)) as [Hid | Hid].
  2:{ rewrite bool_decide_eq_false_2 by exact Hid. reflexivity. }
  assert (Htr : truthy (QueryRequest.user_id request) = Some uid).
  { apply truthy_Some. auto. }
  pose proof (process_query_users e request w) as Hus.
  rewrite Htr, Ht in Hus. simpl in Hus.
  destruct (process_query e request w) as [[r | ex] w']; simpl.
  - destruct Hus as (u & Hu' & _). congruence.
  - apply andb_false_r.
Qed.

Lemma handle_day_inv (n : nat) (c : call) (w : world) :
  users_wf (users (db w)) ->
  on_day d c ->
  n = 0%nat \/ quota_inv uid d n w ->
  let n' := (n + (if free_query_of uid c && fst (handle c w) then 1 else 0))%nat in
  n' = 0%nat \/ quota_inv uid d n' (snd (handle c w)).
Proof.
  intros Hwf Hday Hinv n'. subst n'.
  destruct (users (db w) !! uid) as [u |] eqn:Hu.
  - destruct (Hwf uid u Hu) as [Hpos Hcnt].
    right. apply (handle_quota_inv uid d Hpos n c w Hday).
    destruct Hinv as [-> | Hinv]; [| exact Hinv].
    exists u. split; [exact Hu |]. split; [simpl; lia | lia].
  - rewrite (no_row_no_service c w Hu), Nat.add_0_r.
    destruct Hinv as [-> | (u & Hu' & _)]; [left; reflexivity | congruence].
Qed.

Lemma run_day_inv (cs : list call) (n : nat) (w : world) :
  users_wf (users (db w)) ->
  Forall (on_day d) cs ->
  n = 0%nat \/ quota_inv uid d n w ->
  (n + served_count uid cs w = 0)%nat
  \/ quota_inv uid d (n + served_count uid cs w) (run cs w).
Proof.
  intros Hwf Hdays. revert n w Hwf.
  induction Hdays as [| c cs Hc Hcs IH]; intros n w Hwf Hinv; simpl.
  - rewrite Nat.add_0_r. exact Hinv.
  - rewrite Nat.add_assoc. apply IH; [apply handle_users_wf; exact Hwf |].
    apply handle_day_inv; assumption.
Qed.

Lemma served_count_bound (cs : list call) (w : world) :
  reachable w ->
  Forall (on_day d) cs ->
  (served_count uid cs w <= 50)%nat.
Proof.
  intros Hr Hdays.
  destruct (run_day_inv cs 0 w (reachable_users_wf w Hr) Hdays (or_introl eq_refl))
    as [H0 | (u & Hu & Hn & _)]; simpl in *; [lia |].
  destruct (users_capped_inv (run cs w) (reachable_run cs w Hr) uid u Hu)
    as [[_ Hcap] _].
  lia.
Qed.

End DayBound.

(** ** The canned strings *)

Lemma lower_char_idempotent (c : ascii) :
  Text.lower_char (Text.lower_char c) = Text.lower_char c.
Proof.
  destruct c as [[] [] [] [] [] [] [] []]; reflexivity.
Qed.

Lemma lower_idempotent (s : string) : Text.lower (Text.lower s) = Text.lower s.
Proof.
  induction s as [| c s IH]; simpl; [reflexivity |].
  rewrite lower_char_idempotent, IH. reflexivity.
Qed.

Lemma responses_lookup (t : string) (tr : gmap string string) :
  responses !! t = Some tr -> tr ∈ tier_dicts.
Proof.
  unfold responses. rewrite tier_dict_lookup. unfold tier_dicts.
  repeat case_decide; intros Hr; inversion Hr; subst;
    repeat first [apply list_elem_of_here | apply list_elem_of_further].
Qed.

Lemma first_matching_key_live (t ql : string) :
  first_matching_key t ql ∈ live_keys.
Proof.
  unfold first_matching_key, priority_rules, live_keys.
  destruct (String.eqb t "aerial"); destruct (String.eqb t "celestial");
    cbn [app List.find fst snd];
    repeat (match goal with
            | |- context [Text.any_in ?ws ql] => destruct (Text.any_in ws ql)
            end; cbn [List.find fst snd]);
    repeat first [apply list_elem_of_here | apply list_elem_of_further].
Qed.

(** In each dictionary the strings under the keys that are never read differ
    from every string under a key that is read, and the greeting differs from
    the other strings that are read. *)
Lemma canned_strings_distinct :
  Forall (fun tr : gmap string string =>
            Forall (fun k =>
                      Forall (fun k' => tr !! k' = None \/ tr !! k' <> tr !! k)
                             dead_keys
                      /\ (k = "greeting" \/ tr !! k <> tr !! "greeting"))
                   live_keys)
         tier_dicts.
Proof.
  unfold tier_dicts, live_keys, dead_keys.
  repeat first [apply Forall_nil_2 | apply Forall_cons_2 | split];
    first [ left; reflexivity
          | left; vm_compute; reflexivity
          | right; vm_compute; intros Heq; discriminate Heq ].
Qed.

Lemma responses_tier_known (t : string) (tr : gmap string string) :
  responses !! t = Some tr -> known_tier t.
Proof.
  unfold responses. rewrite tier_dict_lookup. unfold known_tier.
  repeat case_decide; intros Hr; try discriminate; auto.
Qed.

(** The response is the string under the first matching key, or the default
    when the tier has no string under that key. *)
Lemma generate_response_key (e : Env) (query t : string) (w : world)
    (tr : gmap string string) :
  responses !! t = Some tr ->
  exists r w' k,
    generate_response e query t w = (Return r, w')
    /\ k ∈ live_keys
    /\ tr !! k = Some (AIResponse.response r)
    /\ (k = first_matching_key t (Text.lower query)
        \/ (k = "default"
            /\ tr !! first_matching_key t (Text.lower query) = None)).
Proof.
  intros Hr.
  destruct (generate_response_known e query t w (responses_tier_known t tr Hr))
    as (resp & conf & secs & Hg & Hs & _).
  unfold spec_response in Hs. rewrite Hr in Hs.
  do 2 eexists.
  destruct (tr !! first_matching_key t (Text.lower query)) as [s |] eqn:Hk.
  - exists (first_matching_key t (Text.lower query)).
    split; [exact Hg |]. split; [apply first_matching_key_live |].
    simpl. split; [congruence | left; reflexivity].
  - exists "default". split; [exact Hg |].
    split; [unfold live_keys; repeat first [apply list_elem_of_here | apply list_elem_of_further] |].
    simpl. split; [exact Hs | right; split; reflexivity].
Qed.

(** X18. For every tier of the table the response is never the string
    stored under features, prediction or temporal: these entries are dead. *)
Theorem never_dead_string (e : Env) (query t : string) (w : world)
    (tr : gmap string string) :
  responses !! t = Some tr ->
  exists r w',
    generate_response e query t w = (Return r, w')
    /\ forall k, k ∈ dead_keys -> tr !! k <> Some (AIResponse.response r).
Proof.
  intros Hr.
  destruct (generate_response_key e query t w tr Hr)
    as (r & w' & k & Hg & Hlive & Hk & _).
  exists r, w'. split; [exact Hg |]. intros k' Hdead.
  pose proof canned_strings_distinct as Hd.
  rewrite Forall_forall in Hd. specialize (Hd tr (responses_lookup t tr Hr)).
  rewrite Forall_forall in Hd. destruct (Hd k Hlive) as [Hdk _].
  rewrite Forall_forall in Hdk. destruct (Hdk k' Hdead) as [Hn | Hne].
  - rewrite Hn. discriminate.
  - rewrite <- Hk. exact Hne.
Qed.

Lemma first_matching_key_greeting (t ql : string) :
  first_matching_key t ql = "greeting" <-> Text.any_in greeting_words ql = true.
Proof.
  unfold first_matching_key, priority_rules, greeting_words.
  destruct (String.eqb t "aerial"); destruct (String.eqb t "celestial");
    cbn [app List.find fst snd];
    repeat (match goal with
            | |- context [Text.any_in ?ws ql] => destruct (Text.any_in ws ql)
            end; cbn [List.find fst snd]);
    split; intros H; try reflexivity; try discriminate H.
Qed.

(** X17. For every tier of the table the response is the tier's greeting
    exactly when the lowercased text contains hello, hi, hey or greeting as
    a substring, also inside another word. *)
Theorem greeting_iff (e : Env) (query t : string) (w : world)
    (tr : gmap string string) :
  responses !! t = Some tr ->
  exists r w',
    generate_response e query t w = (Return r, w')
    /\ (tr !! "greeting" = Some (AIResponse.response r)
        <-> Text.any_in greeting_words (Text.lower query) = true).
Proof.
  intros Hr.
  destruct (generate_response_key e query t w tr Hr)
    as (r & w' & k & Hg & Hlive & Hk & Hwhich).
  exists r, w'. split; [exact Hg |].
  rewrite <- first_matching_key_greeting.
  pose proof canned_strings_distinct as Hd.
  rewrite Forall_forall in Hd. specialize (Hd tr (responses_lookup t tr Hr)).
  rewrite Forall_forall in Hd. destruct (Hd k Hlive) as [_ Hgk].
  split.
  - intros Hgr. destruct Hgk as [-> | Hne]; [| congruence].
    destruct Hwhich as [Heq | [Heq _]]; [symmetry; exact Heq | discriminate Heq].
  - intros Hkey. destruct Hwhich as [-> | [-> Hnone]].
    + rewrite Hkey in Hk. exact Hk.
    + rewrite Hkey in Hnone.
      destruct (canned_strings t tr Hr) as ([g Hgg] & _). congruence.
Qed.

Lemma paid_tiers_lack_help :
  Forall (fun tr : gmap string string =>
            tr !! "help" = None /\ tr !! "upgrade" = None)
         [aerial_responses; celestial_responses].
Proof. repeat first [apply Forall_nil_2 | apply Forall_cons_2 | split]; reflexivity. Qed.

Lemma first_matching_key_help (t ql : string) :
  Text.any_in greeting_words ql = false ->
  Text.any_in help_words ql || Text.any_in upgrade_words ql = true ->
  first_matching_key t ql = "help" \/ first_matching_key t ql = "upgrade".
Proof.
  unfold first_matching_key, priority_rules, greeting_words, help_words,
    upgrade_words.
  intros Hg Hh. cbn [app List.find fst snd]. rewrite Hg.
  destruct (Text.any_in ["help"; "what can you do"] ql); [left; reflexivity |].
  simpl in Hh. rewrite Hh. right. reflexivity.
Qed.

(** X19. At the paid tiers, which have no help and no upgrade string, a
    text without a greeting word that contains a help or upgrade word gets
    the tier's default string, even if it also contains the tier's own
    keyword. *)
Theorem paid_help_default (e : Env) (query t : string) (w : world)
    (tr : gmap string string) :
  responses !! t = Some tr ->
  t <> "terrestrial" ->
  Text.any_in greeting_words (Text.lower query) = false ->
  Text.any_in help_words (Text.lower query)
  || Text.any_in upgrade_words (Text.lower query) = true ->
  exists r w',
    generate_response e query t w = (Return r, w')
    /\ tr !! "default" = Some (AIResponse.response r).
Proof.
  intros Hr Ht Hg Hh.
  destruct (generate_response_key e query t w tr Hr)
    as (r & w' & k & Hgen & _ & Hk & Hwhich).
  exists r, w'. split; [exact Hgen |].
  assert (Hnone : tr !! "help" = None /\ tr !! "upgrade" = None).
  { pose proof paid_tiers_lack_help as Hp. rewrite Forall_forall in Hp.
    apply Hp. unfold responses in Hr. rewrite tier_dict_lookup in Hr.
    repeat case_decide; try congruence; inversion Hr; subst;
      repeat first [apply list_elem_of_here | apply list_elem_of_further]. }
  destruct Hwhich as [-> | [-> _]]; [| exact Hk].
  destruct (first_matching_key_help t (Text.lower query) Hg Hh) as [E | E];
    rewrite E in Hk; destruct Hnone; congruence.
Qed.

Lemma same_lowercase_same_response (e1 e2 : Env) (q1 q2 t : string)
    (w1 w2 : world) :
  known_tier t ->
  Text.lower q1 = Text.lower q2 ->
  exists r1 r2 w1' w2',
    generate_response e1 q1 t w1 = (Return r1, w1')
    /\ generate_response e2 q2 t w2 = (Return r2, w2')
    /\ AIResponse.response r1 = AIResponse.response r2.
Proof.
  intros Hk Hl.
  destruct (generate_response_known e1 q1 t w1 Hk) as (s1 & c1 & t1 & H1 & Hs1 & _).
  destruct (generate_response_known e2 q2 t w2 Hk) as (s2 & c2 & t2 & H2 & Hs2 & _).
  do 4 eexists. split; [exact H1 |]. split; [exact H2 |]. simpl.
  unfold spec_response in Hs1, Hs2. rewrite Hl in Hs1. congruence.
Qed.

(** The sleep and the reported processing time. *)
Lemma generate_response_timing (e : Env) (query tier : string) (w : world) :
  known_tier tier ->
  exists r secs lo hi k,
    generate_response e query tier w
    = (Return r, World (db w) (log w ++ [Sleep secs]))
    /\ AIResponse.processing_time r = secs
    /\ In (tier, (lo, hi)) processing_bounds
    /\ secs = uniform lo hi (random e k).
Proof.
  intros Hk.
  destruct (responses_known tier Hk) as [tr Hr].
  unfold generate_response.
  unfold bind at 1. unfold getitem at 1. rewrite tier_dict_lookup.
  destruct Hk as [-> | [-> | ->]];
    repeat (case_decide; try congruence);
    unfold ret at 1; unfold bind at 1; unfold emit;
    unfold bind at 1; unfold getitem at 1; rewrite Hr; unfold ret at 1;
    unfold bind at 1;
    match goal with
    | |- context [select_response ?t tr ?q ?w'] =>
        destruct (select_response_spec t tr q w' Hr) as (s & Hs & Hspec);
        rewrite Hs
    end;
    unfold bind at 1; unfold getitem at 1; rewrite tier_dict_lookup;
    repeat (case_decide; try congruence);
    unfold ret at 1; unfold bind at 1; unfold getitem at 1;
    rewrite tier_dict_lookup; repeat (case_decide; try congruence);
    unfold ret;
    do 5 eexists; (split; [reflexivity |]); (split; [reflexivity |]);
    (split; [| reflexivity]); simpl; auto.
Qed.

Lemma processing_bounds_range (t : string) (lo hi r : Q) :
  In (t, (lo, hi)) processing_bounds ->
  (0 <= r < 1)%Q ->
  (lo <= uniform lo hi r <= hi)%Q /\ (1 # 2 <= lo)%Q /\ (hi <= 4)%Q.
Proof.
  unfold processing_bounds. simpl.
  intros [H | [H | [H | []]]] Hr; inversion H; subst; unfold uniform;
    (split; [| split]); lra.
Qed.

(** ** The stored hash *)

Lemma be_bytes_length (n : nat) (x : Z) : length (SHA256.be_bytes n x) = n.
Proof. induction n as [| n IH]; simpl; [reflexivity | rewrite IH; reflexivity]. Qed.

Lemma be_bytes_range (n : nat) (x : Z) :
  Forall (fun b => 0 <= b < 256) (SHA256.be_bytes n x).
Proof.
  induction n as [| n IH]; simpl; constructor; [| exact IH].
  change 255 with (Z.ones 8). rewrite Z.land_ones by lia.
  apply Z.mod_pos_bound. lia.
Qed.

Lemma compress_length (h block : list Z) :
  length h = 8%nat -> length (SHA256.compress h block) = 8%nat.
Proof.
  intros Hh. unfold SHA256.compress. rewrite length_zip_with, Hh. reflexivity.
Qed.

Lemma blocks_length (fuel : nat) (ws h : list Z) :
  length h = 8%nat -> length (SHA256.blocks fuel ws h) = 8%nat.
Proof.
  revert ws h. induction fuel as [| fuel IH]; intros ws h Hh; simpl.
  - destruct ws; exact Hh.
  - destruct ws; [exact Hh |]. apply IH, compress_length, Hh.
Qed.

Lemma digest_words_length (msg : list Z) :
  length (SHA256.digest_words msg) = 8%nat.
Proof.
  unfold SHA256.digest_words. apply blocks_length. vm_compute. reflexivity.
Qed.

Lemma digest_bytes (ws : list Z) :
  length (flat_map (SHA256.be_bytes 4) ws) = (4 * length ws)%nat
  /\ Forall (fun b => 0 <= b < 256) (flat_map (SHA256.be_bytes 4) ws).
Proof.
  induction ws as [| x ws [IHl IHr]]; [split; [reflexivity | constructor] |].
  cbn [flat_map]. split.
  - rewrite length_app, be_bytes_length, IHl. simpl. lia.
  - apply Forall_app. split; [apply be_bytes_range | exact IHr].
Qed.

Lemma hex_digit_hex (d : Z) :
  0 <= d < 16 -> is_hex_char (SHA256.hex_digit d) = true.
Proof.
  intros Hd.
  assert (d = 0 \/ d = 1 \/ d = 2 \/ d = 3 \/ d = 4 \/ d = 5 \/ d = 6 \/ d = 7
          \/ d = 8 \/ d = 9 \/ d = 10 \/ d = 11 \/ d = 12 \/ d = 13 \/ d = 14
          \/ d = 15) as Hcases by lia.
  repeat (destruct Hcases as [-> | Hcases]; [reflexivity |]).
  subst. reflexivity.
Qed.

Lemma hex_of_bytes_format (bs : list Z) :
  Forall (fun b => 0 <= b < 256) bs ->
  String.length (SHA256.hex_of_bytes bs) = (2 * length bs)%nat
  /\ string_forall is_hex_char (SHA256.hex_of_bytes bs) = true.
Proof.
  induction 1 as [| b bs Hb Hbs [IHl IHf]]; [split; reflexivity |].
  cbn [SHA256.hex_of_bytes String.length string_forall length]. split.
  - rewrite IHl. lia.
  - rewrite IHf, !hex_digit_hex; [reflexivity | |].
    + change 15 with (Z.ones 4). rewrite Z.land_ones by lia.
      apply Z.mod_pos_bound. lia.
    + rewrite Z.shiftr_div_pow2 by lia. change (2 ^ 4) with 16.
      split; [apply Z.div_pos; lia | apply Z.div_lt_upper_bound; lia].
Qed.

(** X21. [hash_password] returns 64 characters, each a lowercase
    hexadecimal digit, for every password. *)
Theorem hash_password_hex (password : string) :
  String.length (hash_password password) = 64%nat
  /\ string_forall is_hex_char (hash_password password) = true.
Proof.
  unfold hash_password, SHA256.hexdigest.
  destruct (digest_bytes (SHA256.digest_words (Text.encode password)))
    as [Hl Hr].
  destruct (hex_of_bytes_format _ Hr) as [Hl' Hf].
  rewrite Hl', Hl, digest_words_length. split; [reflexivity | exact Hf].
Qed.

(** ** The remaining properties, and what each one was checked on *)

(** X1. In a reachable world no two user rows have the same email. *)
Theorem reachable_emails_unique (w : world) :
  reachable w -> emails_unique (users (db w)).
Proof. exact (emails_unique_inv w). Qed.

(** X3. In a reachable world, logging in with the email of a stored row and
    a password whose hash is the stored one returns that row's id, tier and
    current message count, and changes nothing. *)
Theorem login_user_success (user : UserLogin.t) (w : world) (id : Z) (u : User.t) :
  reachable w ->
  users (db w) !! id = Some u ->
  User.email u = UserLogin.email user ->
  User.password_hash u = hash_password (UserLogin.password user) ->
  login_user user w
  = (Return (id, User.tier u, User.message_count u), w).
Proof. exact (login_user_found user w id u). Qed.

(** X5. In a reachable world every stored counter is between 0 and 50 and
    every stored tier is terrestrial. *)
Theorem reachable_users_capped (w : world) :
  reachable w -> users_capped (users (db w)).
Proof. exact (users_capped_inv w). Qed.

(** X6. From a reachable world, among any requests that read the clock on
    one day, at most 50 free-tier queries of one user (id not 0) are
    served. *)
Theorem daily_served_bound (uid d : Z) (cs : list call) (w : world) :
  uid <> 0 ->
  reachable w ->
  Forall (on_day d) cs ->
  (served_count uid cs w <= 50)%nat.
Proof. intros Hnz. exact (served_count_bound uid d Hnz cs w). Qed.

(** X16. The choice of the response ignores case: a text and its lowercase
    form, which lowering again leaves as it is, get the same response. *)
Theorem case_insensitive (e1 e2 : Env) (query t : string) (w1 w2 : world) :
  known_tier t ->
  Text.lower (Text.lower query) = Text.lower query
  /\ exists r1 r2 w1' w2',
       generate_response e1 query t w1 = (Return r1, w1')
       /\ generate_response e2 (Text.lower query) t w2 = (Return r2, w2')
       /\ AIResponse.response r1 = AIResponse.response r2.
Proof.
  intros Hk. split; [apply lower_idempotent |].
  apply same_lowercase_same_response; [exact Hk |].
  symmetry. apply lower_idempotent.
Qed.

(** X20. For a known tier, with generator values in [0, 1), the generator
    sleeps once, for a time within the tier's bounds (2 to 4 seconds for
    terrestrial, 1 to 2 for aerial, 0.5 to 1 for celestial), and reports that
    time as the processing time. *)
Theorem sleep_within_bounds (e : Env) (query tier : string) (w : world) :
  known_tier tier ->
  (forall k, 0 <= random e k < 1)%Q ->
  exists r secs lo hi,
    generate_response e query tier w
    = (Return r, World (db w) (log w ++ [Sleep secs]))
    /\ AIResponse.processing_time r = secs
    /\ In (tier, (lo, hi)) processing_bounds
    /\ (lo <= secs <= hi)%Q.
Proof.
  intros Hk Hrand.
  destruct (generate_response_timing e query tier w Hk)
    as (r & secs & lo & hi & k & Hg & Hp & Hin & ->).
  exists r, (uniform lo hi (random e k)), lo, hi.
  repeat (split; [assumption |]).
  exact (proj1 (processing_bounds_range tier lo hi _ Hin (Hrand k))).
Qed.

Lemma alice_world_users :
  users (db alice_world) = {[ 1 := new_user (noon 1) alice ]}.
Proof. vm_compute. reflexivity. Qed.

Lemma alice_world_reachable : reachable alice_world.
Proof. exists [Register (noon 1) alice]. reflexivity. Qed.

Lemma reachable_emails_unique_witness :
  emails_unique (users (db alice_bob_world)).
Proof.
  apply (reachable_emails_unique alice_bob_world).
  exists [Register (noon 1) alice; Register (noon 1) bob]. reflexivity.
Defined.

Lemma register_user_dense_witness :
  fst (register_user (noon 2) bob alice_world)
  = Return (Z.of_nat (size (users (db alice_world))) + 1)
  /\ size (users (db (snd (register_user (noon 2) bob alice_world))))
     = S (size (users (db alice_world)))
  /\ forall k, is_Some (users (db alice_world) !! k)
               <-> 1 <= k <= Z.of_nat (size (users (db alice_world))).
Proof.
  apply (register_user_dense (noon 2) bob alice_world).
  - exact alice_world_reachable.
  - intros (k & u & Hk & He). rewrite alice_world_users in Hk.
    apply lookup_singleton_Some in Hk as [_ <-]. vm_compute in He.
    discriminate He.
Defined.

Lemma login_user_success_witness :
  login_user (UserLogin.Make "alice@example.com" "secret") alice_world
  = (Return (1, User.tier (new_user (noon 1) alice),
             User.message_count (new_user (noon 1) alice)), alice_world).
Proof.
  apply (login_user_success (UserLogin.Make "alice@example.com" "secret")
           alice_world 1 (new_user (noon 1) alice)).
  - exact alice_world_reachable.
  - rewrite alice_world_users. apply lookup_singleton_eq.
  - reflexivity.
  - vm_compute. reflexivity.
Defined.

Lemma register_login_roundtrip_witness :
  login_user (UserLogin.Make (UserRegistration.email alice)
                             (UserRegistration.password alice))
             (snd (register_user (noon 1) alice init_database))
  = (Return (1, "terrestrial", 0),
     snd (register_user (noon 1) alice init_database)).
Proof.
  apply (register_login_roundtrip (noon 1) alice init_database).
  - exists []. reflexivity.
  - vm_compute. reflexivity.
Defined.

Lemma reachable_users_capped_witness :
  users_capped (users (db (run (fifty_queries 5) alice_world))).
Proof.
  apply (reachable_users_capped (run (fifty_queries 5) alice_world)).
  apply reachable_run. exact alice_world_reachable.
Defined.

Lemma daily_served_bound_witness :
  (served_count 1 (fifty_queries 5 ++ fifty_queries 5) alice_world <= 50)%nat.
Proof.
  apply (daily_served_bound 1 5 (fifty_queries 5 ++ fifty_queries 5) alice_world).
  - discriminate.
  - exact alice_world_reachable.
  - apply Forall_app. split; apply fifty_queries_on_day.
Defined.

Lemma process_query_below_cap_witness :
  exists r w',
    process_query (noon 1) (QueryRequest.Make "hello" "terrestrial" (Some 1))
      alice_world = (Return r, w')
    /\ users (db w')
       = <[1 := increment_row (checked_row (noon 1) (new_user (noon 1) alice))]>
           (users (db alice_world))
    /\ User.message_count
         (increment_row (checked_row (noon 1) (new_user (noon 1) alice)))
       = User.message_count (checked_row (noon 1) (new_user (noon 1) alice)) + 1
    /\ messages (db w')
       = messages (db alice_world)
         ++ [new_message (noon 1)
               (QueryRequest.Make "hello" "terrestrial" (Some 1)) 1
               (AIResponse.response r) (db alice_world)].
Proof.
  apply (process_query_below_cap (noon 1)
           (QueryRequest.Make "hello" "terrestrial" (Some 1)) alice_world 1
           (new_user (noon 1) alice)).
  - reflexivity.
  - reflexivity.
  - vm_compute. discriminate.
  - rewrite alice_world_users. apply lookup_singleton_eq.
  - vm_compute. reflexivity.
Defined.





Lemma process_query_anonymous_witness :
  let request := QueryRequest.Make "hello" "celestial" None in
  exists r secs,
    process_query (noon 1) request alice_world
    = (Return r, World (db alice_world) (log alice_world ++ [Sleep secs]))
    /\ spec_response (QueryRequest.tier request) (QueryRequest.query request)
       = Some (AIResponse.response r).
Proof.
  intros request.
  apply (process_query_anonymous (noon 1) request alice_world).
  - exists 8000. split; [simpl; auto | vm_compute; discriminate].
  - reflexivity.
Defined.

Lemma run_row_persists_witness :
  exists u',
    users (db (run (fifty_queries 5) alice_world)) !! 1 = Some u'
    /\ same_identity (new_user (noon 1) alice) u'.
Proof.
  apply (run_row_persists (fifty_queries 5) alice_world 1
           (new_user (noon 1) alice)).
  rewrite alice_world_users. apply lookup_singleton_eq.
Defined.

Lemma message_ids_dense_inv_witness :
  message_ids_dense (messages (db (run (fifty_queries 5) alice_world))).
Proof.
  apply (message_ids_dense_inv (run (fifty_queries 5) alice_world)).
  apply reachable_run. exact alice_world_reachable.
Defined.

Lemma get_stats_reachable_witness :
  get_stats alice_bob_world
  = (Return (match size (users (db alice_bob_world)) with
             | O => ∅
             | S _ => {[ "terrestrial"
                         := Z.of_nat (size (users (db alice_bob_world))) ]}
             end,
             Z.of_nat (length (messages (db alice_bob_world)))),
     alice_bob_world).
Proof.
  apply (get_stats_reachable alice_bob_world).
  exists [Register (noon 1) alice; Register (noon 1) bob]. reflexivity.
Defined.

Lemma case_insensitive_witness :
  Text.lower (Text.lower "HELLO There") = Text.lower "HELLO There"
  /\ exists r1 r2 w1' w2',
       generate_response (noon 1) "HELLO There" "aerial" init_database
       = (Return r1, w1')
       /\ generate_response (noon 2) (Text.lower "HELLO There") "aerial"
            alice_world = (Return r2, w2')
       /\ AIResponse.response r1 = AIResponse.response r2.
Proof.
  apply (case_insensitive (noon 1) (noon 2) "HELLO There" "aerial"
           init_database alice_world).
  right. left. reflexivity.
Defined.

Lemma greeting_iff_witness :
  exists r w',
    generate_response (noon 1) "Is this the upgrade page" "aerial" init_database
    = (Return r, w')
    /\ (aerial_responses !! "greeting" = Some (AIResponse.response r)
        <-> Text.any_in greeting_words (Text.lower "Is this the upgrade page")
            = true).
Proof.
  apply (greeting_iff (noon 1) "Is this the upgrade page" "aerial"
           init_database aerial_responses).
  reflexivity.
Defined.

Lemma never_dead_string_witness :
  exists r w',
    generate_response (noon 1) "what features do you have" "terrestrial"
      init_database = (Return r, w')
    /\ forall k, k ∈ dead_keys ->
         terrestrial_responses !! k <> Some (AIResponse.response r).
Proof.
  apply (never_dead_string (noon 1) "what features do you have" "terrestrial"
           init_database terrestrial_responses).
  reflexivity.
Defined.

Lemma paid_help_default_witness :
  exists r w',
    generate_response (noon 1) "Help me analyze data" "aerial" init_database
    = (Return r, w')
    /\ aerial_responses !! "default" = Some (AIResponse.response r).
Proof.
  apply (paid_help_default (noon 1) "Help me analyze data" "aerial"
           init_database aerial_responses).
  - reflexivity.
  - discriminate.
  - vm_compute. reflexivity.
  - vm_compute. reflexivity.
Defined.

Lemma sleep_within_bounds_witness :
  exists r secs lo hi,
    generate_response (noon 1) "hello" "celestial" init_database
    = (Return r, World (db init_database) (log init_database ++ [Sleep secs]))
    /\ AIResponse.processing_time r = secs
    /\ In ("celestial", (lo, hi)) processing_bounds
    /\ (lo <= secs <= hi)%Q.
Proof.
  apply (sleep_within_bounds (noon 1) "hello" "celestial" init_database).
  - right. right. reflexivity.
  - intros k. simpl. split; [discriminate | reflexivity].
Defined.
